(** * W3J Studio: the layer / history engine of [src/App.tsx]

    A shallow embedding of the React component [App]: its state variables
    are the fields of one record, every handler is a function from the
    state of the render it closed over to the state after its setter calls,
    and the browser and the AI service are explicit oracles.  JavaScript
    numbers that hold pixel coordinates are IEEE binary64 values
    ([PrimFloat.float]); [historyIndex] only ever holds small integers and
    is a [Z]. *)

From Stdlib Require Import ZArith List String Ascii Bool Lia DecimalString.
From Stdlib Require Import PrimFloat SpecFloat FloatOps FloatAxioms.
Import ListNotations.

Local Open Scope string_scope.
Local Open Scope Z_scope.

(** ** JavaScript built-ins used by the component *)

Module JS.

(** Relative index of [Array.prototype.slice]: negative arguments count
    from the end, everything is clamped to [0, len]. *)
Definition relIndex (len i : Z) : Z :=
  if i <? 0 then Z.max (len + i) 0 else Z.min i len.

(** [a.slice(start, end)]. *)
Definition slice {A : Type} (a : list A) (start end_ : Z) : list A :=
  let len := Z.of_nat (List.length a) in
  let k := relIndex len start in
  let final := relIndex len end_ in
  firstn (Z.to_nat (final - k)) (skipn (Z.to_nat k) a).

(** [a.slice(start)]: the end defaults to the length. *)
Definition sliceFrom {A : Type} (a : list A) (start : Z) : list A :=
  slice a start (Z.of_nat (List.length a)).

(** [a[i]] for an integer [i]: [undefined] (here [None]) out of range. *)
Definition index {A : Type} (a : list A) (i : Z) : option A :=
  if i <? 0 then None else nth_error a (Z.to_nat i).

(** [a.push(x)] on a freshly built array. *)
Definition push {A : Type} (a : list A) (x : A) : list A := a ++ [x].

(** White space removed by [String.prototype.trim], as far as it is
    encoded in one byte: TAB, LF, VT, FF, CR and SPACE. *)
Definition isWhiteSpace (c : ascii) : bool :=
  let n := nat_of_ascii c in
  ((9 <=? n)%nat && (n <=? 13)%nat) || (n =? 32)%nat.

Fixpoint trimStart (s : string) : string :=
  match s with
  | String c r => if isWhiteSpace c then trimStart r else s
  | EmptyString => EmptyString
  end.

Fixpoint revString (acc s : string) : string :=
  match s with
  | EmptyString => acc
  | String c r => revString (String c acc) r
  end.

Definition trim (s : string) : string :=
  revString "" (trimStart (revString "" (trimStart s))).

(** Truthiness of a string: only the empty string is falsy. *)
Definition truthy (s : string) : bool :=
  match s with EmptyString => false | String _ _ => true end.

(** [n.toString()] for an integer-valued number. *)
Definition toString (n : Z) : string := NilZero.string_of_int (Z.to_int n).

(** [s.split(',')]: the pieces between the separators, at least one. *)
Fixpoint split (sep : ascii) (s : string) : list string :=
  match s with
  | EmptyString => [EmptyString]
  | String c r =>
      if Ascii.eqb c sep then EmptyString :: split sep r
      else match split sep r with
           | piece :: rest => String c piece :: rest
           | [] => [String c EmptyString]
           end
  end.

(** Line terminators, which [.] in a regular expression does not match
    (LF and CR; the two-byte separators are outside one-byte strings). *)
Definition isLineTerminator (c : ascii) : bool :=
  let n := nat_of_ascii c in (n =? 10)%nat || (n =? 13)%nat.

(** The lazy group [(.*?);] tried at one position: the text up to the
    first [;], unless a line terminator or the end comes first. *)
Fixpoint lazyUntilSemicolon (s : string) : option string :=
  match s with
  | EmptyString => None
  | String c r =>
      if Ascii.eqb c ";" then Some EmptyString
      else if isLineTerminator c then None
      else option_map (String c) (lazyUntilSemicolon r)
  end.

(** Group 1 of [s.match(/:(.*?);/)]: the leftmost [:] from which the rest
    of the pattern matches; [None] is the [null] of a failed match. *)
Fixpoint matchMime (s : string) : option string :=
  match s with
  | EmptyString => None
  | String c r =>
      if Ascii.eqb c ":" then
        match lazyUntilSemicolon r with
        | Some g => Some g
        | None => matchMime r
        end
      else matchMime r
  end.

(** [Math.round]: the integral number closest to [x], ties towards
    +Infinity, computed exactly as [floor (x + 1/2)] on the decoded
    mantissa and exponent; zeros, infinities and NaN are returned as they
    are, and a negative [x] that rounds to zero gives [-0]. *)
Definition Math_round (x : float) : float :=
  match Prim2SF x with
  | S754_finite s m e =>
      if 0 <=? e then x
      else
        let signed := if s then Z.neg m else Z.pos m in
        match Z.shiftr (2 * signed + 2 ^ (- e)) (1 - e) with
        | Z0 => if s then (-0)%float else 0%float
        | Z.pos p => SF2Prim (S754_finite false p 0)
        | Z.neg p => SF2Prim (S754_finite true p 0)
        end
  | _ => x
  end.

(** [x || 1] on numbers: [0], [-0] and [NaN] are falsy. *)
Definition orOne (x : float) : float :=
  if (PrimFloat.eqb x 0 || negb (PrimFloat.eqb x x))%bool then 1%float else x.

(** [Number.isFinite]: neither an infinity nor NaN. *)
Definition isFinite (x : float) : bool :=
  match Prim2SF x with
  | S754_zero _ | S754_finite _ _ _ => true
  | S754_infinity _ | S754_nan => false
  end.

End JS.

(** ** Data model (the interfaces at the top of [App.tsx]) *)

(** A [File]: the bytes, the name and the MIME type given to its
    constructor. *)
Record File : Type := mkFile {
  fileBits : string;
  fileName : string;
  fileType : string
}.

Module Layer.
Record t : Type := mk {
  id : string;
  imageUrl : string;   (* data URL from the AI service *)
  prompt : string
}.
End Layer.

Module AppState.
Record t : Type := mk {
  imageFile : File;
  imageUrl : string;   (* object URL for the base image *)
  layers : list Layer.t
}.
End AppState.

Inductive Tab : Type :=
  TabEdit | TabSolutions | TabStudio | TabProduct | TabAdjust | TabFilters | TabCrop.

Inductive EditTool : Type := Point | Brush | Erase.

Module Hotspot.
Record t : Type := mk { x : float; y : float }.
End Hotspot.

Module PixelCrop.
Record t : Type := mk { x : float; y : float; width : float; height : float }.
End PixelCrop.

(** The state variables of [App] that the modelled handlers read or write,
    followed by the two pieces of browser state they act on: the object
    URLs handed to [URL.revokeObjectURL], oldest first, and the number of
    object URLs minted so far by [URL.createObjectURL]. *)
Record App : Type := mkApp {
  history : list AppState.t;
  historyIndex : Z;
  activeLayerId : option string;
  prompt : string;
  loadingMessage : option string;
  error : option string;
  activeTab : Tab;
  activeTool : EditTool;
  maskImage : option string;
  editHotspot : option Hotspot.t;
  displayHotspot : option Hotspot.t;
  crop : option PixelCrop.t;
  completedCrop : option PixelCrop.t;
  revoked : list string;
  minted : nat
}.

(** The state of the first render: every [useState] initial value. *)
Definition initialApp : App :=
  {| history := []; historyIndex := -1; activeLayerId := None; prompt := "";
     loadingMessage := None; error := None; activeTab := TabEdit;
     activeTool := Point; maskImage := None; editHotspot := None;
     displayHotspot := None; crop := None; completedCrop := None;
     revoked := []; minted := 0 |}.

(** *** State setters *)

Definition setHistory (v : list AppState.t) (s : App) : App :=
  mkApp v (historyIndex s) (activeLayerId s) (prompt s) (loadingMessage s)
    (error s) (activeTab s) (activeTool s) (maskImage s) (editHotspot s)
    (displayHotspot s) (crop s) (completedCrop s) (revoked s) (minted s).

Definition setHistoryIndex (v : Z) (s : App) : App :=
  mkApp (history s) v (activeLayerId s) (prompt s) (loadingMessage s)
    (error s) (activeTab s) (activeTool s) (maskImage s) (editHotspot s)
    (displayHotspot s) (crop s) (completedCrop s) (revoked s) (minted s).

Definition setActiveLayerId (v : option string) (s : App) : App :=
  mkApp (history s) (historyIndex s) v (prompt s) (loadingMessage s)
    (error s) (activeTab s) (activeTool s) (maskImage s) (editHotspot s)
    (displayHotspot s) (crop s) (completedCrop s) (revoked s) (minted s).

Definition setPrompt (v : string) (s : App) : App :=
  mkApp (history s) (historyIndex s) (activeLayerId s) v (loadingMessage s)
    (error s) (activeTab s) (activeTool s) (maskImage s) (editHotspot s)
    (displayHotspot s) (crop s) (completedCrop s) (revoked s) (minted s).

Definition setLoadingMessage (v : option string) (s : App) : App :=
  mkApp (history s) (historyIndex s) (activeLayerId s) (prompt s) v
    (error s) (activeTab s) (activeTool s) (maskImage s) (editHotspot s)
    (displayHotspot s) (crop s) (completedCrop s) (revoked s) (minted s).

Definition setError (v : option string) (s : App) : App :=
  mkApp (history s) (historyIndex s) (activeLayerId s) (prompt s)
    (loadingMessage s) v (activeTab s) (activeTool s) (maskImage s)
    (editHotspot s) (displayHotspot s) (crop s) (completedCrop s) (revoked s)
    (minted s).

Definition setActiveTab (v : Tab) (s : App) : App :=
  mkApp (history s) (historyIndex s) (activeLayerId s) (prompt s)
    (loadingMessage s) (error s) v (activeTool s) (maskImage s)
    (editHotspot s) (displayHotspot s) (crop s) (completedCrop s) (revoked s)
    (minted s).

Definition setActiveTool (v : EditTool) (s : App) : App :=
  mkApp (history s) (historyIndex s) (activeLayerId s) (prompt s)
    (loadingMessage s) (error s) (activeTab s) v (maskImage s)
    (editHotspot s) (displayHotspot s) (crop s) (completedCrop s) (revoked s)
    (minted s).

Definition setMaskImage (v : option string) (s : App) : App :=
  mkApp (history s) (historyIndex s) (activeLayerId s) (prompt s)
    (loadingMessage s) (error s) (activeTab s) (activeTool s) v
    (editHotspot s) (displayHotspot s) (crop s) (completedCrop s) (revoked s)
    (minted s).

Definition setEditHotspot (v : option Hotspot.t) (s : App) : App :=
  mkApp (history s) (historyIndex s) (activeLayerId s) (prompt s)
    (loadingMessage s) (error s) (activeTab s) (activeTool s) (maskImage s)
    v (displayHotspot s) (crop s) (completedCrop s) (revoked s) (minted s).

Definition setDisplayHotspot (v : option Hotspot.t) (s : App) : App :=
  mkApp (history s) (historyIndex s) (activeLayerId s) (prompt s)
    (loadingMessage s) (error s) (activeTab s) (activeTool s) (maskImage s)
    (editHotspot s) v (crop s) (completedCrop s) (revoked s) (minted s).

Definition setCrop (v : option PixelCrop.t) (s : App) : App :=
  mkApp (history s) (historyIndex s) (activeLayerId s) (prompt s)
    (loadingMessage s) (error s) (activeTab s) (activeTool s) (maskImage s)
    (editHotspot s) (displayHotspot s) v (completedCrop s) (revoked s)
    (minted s).

Definition setCompletedCrop (v : option PixelCrop.t) (s : App) : App :=
  mkApp (history s) (historyIndex s) (activeLayerId s) (prompt s)
    (loadingMessage s) (error s) (activeTab s) (activeTool s) (maskImage s)
    (editHotspot s) (displayHotspot s) (crop s) v (revoked s) (minted s).

(** [URL.revokeObjectURL(url)]: the URL joins the released ones. *)
Definition revokeObjectURL (url : string) (s : App) : App :=
  mkApp (history s) (historyIndex s) (activeLayerId s) (prompt s)
    (loadingMessage s) (error s) (activeTab s) (activeTool s) (maskImage s)
    (editHotspot s) (displayHotspot s) (crop s) (completedCrop s)
    (revoked s ++ [url]) (minted s).

(** [states.forEach(state => URL.revokeObjectURL(state.imageUrl))]. *)
Definition revokeEach (states : list AppState.t) (s : App) : App :=
  fold_left (fun acc state => revokeObjectURL (AppState.imageUrl state) acc) states s.

Definition mintOne (s : App) : App :=
  mkApp (history s) (historyIndex s) (activeLayerId s) (prompt s)
    (loadingMessage s) (error s) (activeTab s) (activeTool s) (maskImage s)
    (editHotspot s) (displayHotspot s) (crop s) (completedCrop s) (revoked s)
    (S (minted s)).

(** Setter calls in the order the handler makes them. *)
Local Notation "s |> f" := (f s) (at level 45, left associativity, only parsing).

(** *** Values derived on every render *)

Definition currentState (s : App) : option AppState.t :=
  JS.index (history s) (historyIndex s).

Definition currentImageFile (s : App) : option File :=
  option_map AppState.imageFile (currentState s).

Definition currentImageUrl (s : App) : option string :=
  option_map AppState.imageUrl (currentState s).

Definition currentLayers (s : App) : list Layer.t :=
  match currentState s with
  | Some st => AppState.layers st
  | None => []
  end.

Definition originalImageUrl (s : App) : option string :=
  option_map AppState.imageUrl (JS.index (history s) 0).

Definition idIs (i : string) (l : Layer.t) : bool := String.eqb (Layer.id l) i.

Definition activeLayer (s : App) : option Layer.t :=
  match activeLayerId s with
  | Some i => find (idIs i) (currentLayers s)
  | None => None
  end.

Definition isLoading (s : App) : bool :=
  match loadingMessage s with Some _ => true | None => false end.

Definition historyLength (s : App) : Z := Z.of_nat (List.length (history s)).

Definition canUndo (s : App) : bool := 0 <? historyIndex s.

Definition canRedo (s : App) : bool := historyIndex s <? historyLength s - 1.

(** ** The history store *)

Definition addImageToHistory (newAppState : AppState.t) (s : App) : App :=
  let discarded := JS.sliceFrom (history s) (historyIndex s + 1) in
  let s1 := if historyIndex s <? historyLength s - 1
            then revokeEach discarded s else s in
  let newHistory := JS.push (JS.slice (history s) 0 (historyIndex s + 1)) newAppState in
  s1 |> setHistory newHistory
     |> setHistoryIndex (Z.of_nat (List.length newHistory) - 1)
     |> setCrop None
     |> setCompletedCrop None
     |> setMaskImage None.

Definition handleUndo (s : App) : App :=
  if canUndo s then
    s |> setHistoryIndex (historyIndex s - 1)
      |> setEditHotspot None
      |> setDisplayHotspot None
      |> setActiveLayerId None
      |> setMaskImage None
  else s.

Definition handleRedo (s : App) : App :=
  if canRedo s then
    s |> setHistoryIndex (historyIndex s + 1)
      |> setEditHotspot None
      |> setDisplayHotspot None
      |> setActiveLayerId None
      |> setMaskImage None
  else s.

Definition handleReset (s : App) : App :=
  if 0 <? historyLength s then
    s |> setHistoryIndex 0
      |> setError None
      |> setEditHotspot None
      |> setDisplayHotspot None
      |> setActiveLayerId None
      |> setMaskImage None
  else s.

Definition handleUploadNew (s : App) : App :=
  s |> setHistory []
    |> setHistoryIndex (-1)
    |> setError None
    |> setPrompt ""
    |> setEditHotspot None
    |> setDisplayHotspot None
    |> setActiveLayerId None
    |> setMaskImage None.

Definition handleSelectLayer (layerId : string) (s : App) : App :=
  match activeTab s with
  | TabEdit =>
      s |> setActiveLayerId (Some layerId)
        |> setEditHotspot None
        |> setDisplayHotspot None
        |> setMaskImage None
        |> setActiveTool Brush
  | _ => s
  end.

Definition handleDeleteLayer (layerId : string) (s : App) : App :=
  match currentState s with
  | None => s
  | Some cur =>
      let newLayers := filter (fun l => negb (idIs layerId l)) (currentLayers s) in
      let newState := AppState.mk (AppState.imageFile cur) (AppState.imageUrl cur) newLayers in
      let s1 := addImageToHistory newState s in
      match activeLayerId s with
      | Some a => if String.eqb a layerId
                  then s1 |> setActiveLayerId None |> setActiveTool Point
                  else s1
      | None => s1
      end
  end.

(** ** Display to native coordinates *)

(** What [handleBaseImageClick] reads from the event and from the image it
    was fired on: the pointer position, the origin of
    [getBoundingClientRect()], and the element's natural and client sizes,
    all measured when the handler runs. *)
Record ImgClick : Type := mkImgClick {
  clientX : float;
  clientY : float;
  rectLeft : float;
  rectTop : float;
  naturalWidth : float;
  naturalHeight : float;
  clientWidth : float;
  clientHeight : float
}.

(** One axis of the conversion: [Math.round(offset * (natural / client))]. *)
Definition toNative (offset natural client : float) : float :=
  JS.Math_round (offset * (natural / client))%float.

Definition handleBaseImageClick (e : ImgClick) (s : App) : App :=
  match activeTab s, activeTool s with
  | TabEdit, Point =>
      let offsetX := (clientX e - rectLeft e)%float in
      let offsetY := (clientY e - rectTop e)%float in
      let scaleX := (naturalWidth e / clientWidth e)%float in
      let scaleY := (naturalHeight e / clientHeight e)%float in
      let originalX := JS.Math_round (offsetX * scaleX)%float in
      let originalY := JS.Math_round (offsetY * scaleY)%float in
      s |> setEditHotspot (Some (Hotspot.mk originalX originalY))
        |> setDisplayHotspot (Some (Hotspot.mk offsetX offsetY))
        |> setActiveLayerId None
        |> setMaskImage None
  | _, _ => s
  end.

(** ** The browser and the asynchronous handlers

    An asynchronous handler is run to its end against the render it was
    started from: what it awaits is given by the browser and service
    oracles, and its result pairs the state after its setter calls with the
    way the invocation ended. *)

(** What a [throw] or a promise rejection carries: an [Error] with its
    message, or the event object that [img.onerror] hands to [reject]. *)
Inductive Thrown : Type :=
| JsError (message : string)
| ErrorEvent.

(** A promise as seen by the [await] on it. *)
Inductive Promise (A : Type) : Type :=
| Resolved (a : A)
| Rejected (e : Thrown)
| Pending.
Arguments Resolved {A} a.
Arguments Rejected {A} e.
Arguments Pending {A}.

(** How the invocation of a handler ends: it returns (every error having
    been caught inside it), an exception or rejection leaves it uncaught,
    or it waits on something that never settles. *)
Inductive Completion : Type :=
| Returned
| Uncaught (e : Thrown)
| Stalled.

(** The calls made on a canvas and its 2D context, in order. *)
Inductive CanvasCall : Type :=
| SetWidth (w : float)
| SetHeight (h : float)
| SetTransform (a b c d e f : float)
| SetSmoothingHigh
| DrawImage3 (src : string) (dx dy : float)
| DrawImage5 (src : string) (dx dy dw dh : float)
| DrawImage9 (src : string) (sx sy sw sh dx dy dw dh : float).

(** The [<img>] element behind [imgRef.current]. *)
Record ImgElement : Type := mkImg { imgWidth : float; imgHeight : float }.

(** The browser during one handler invocation. *)
Record World : Type := mkWorld {
  blobUrl : nat -> string;               (* the n-th URL minted by URL.createObjectURL *)
  now : Z;                               (* Date.now() *)
  loads : string -> bool;                (* an Image with this src fires onload, else onerror *)
  naturalSize : string -> float * float; (* its naturalWidth and naturalHeight *)
  context2d : bool;                      (* canvas.getContext('2d') is not null *)
  toDataURL : list CanvasCall -> string; (* canvas.toDataURL('image/png') *)
  atob : string -> option string;        (* None: atob throws *)
  devicePixelRatio : float;
  imgRef : option ImgElement
}.

(** [URL.createObjectURL(file)]: a new URL every time. *)
Definition createObjectURL (w : World) (s : App) : string * App :=
  (blobUrl w (minted s), mintOne s).

(** [dataURLtoFile]. *)
Definition dataURLtoFile (w : World) (dataurl filename : string) : Thrown + File :=
  match JS.split "," dataurl with
  | header :: payload :: _ =>
      match JS.matchMime header with
      | Some mime =>
          if JS.truthy mime then
            match atob w payload with
            | Some bstr => inr (mkFile bstr filename mime)
            | None => inl (JsError "The string to be decoded is not correctly encoded.")
            end
          else inl (JsError "Could not parse MIME type from data URL")
      | None => inl (JsError "Could not parse MIME type from data URL")
      end
  | _ => inl (JsError "Invalid data URL")
  end.

(** [err instanceof Error ? err.message : 'An unknown error occurred.']. *)
Definition errorMessage (err : Thrown) : string :=
  match err with
  | JsError m => m
  | ErrorEvent => "An unknown error occurred."
  end.

Definition handleImageUpload (w : World) (file : File) (s : App) : App :=
  let s0 := s |> setError None in
  let '(imageUrl, s1) := createObjectURL w s0 in
  let initialState := AppState.mk file imageUrl [] in
  s1 |> setHistory [initialState]
     |> setHistoryIndex 0
     |> setActiveLayerId None
     |> setEditHotspot None
     |> setDisplayHotspot None
     |> setActiveTab TabEdit
     |> setActiveTool Point
     |> setCrop None
     |> setCompletedCrop None.

(** The loop of [flattenImage]: every layer is decoded and drawn in list
    order; the first one that fails to decode rejects the whole promise. *)
Fixpoint drawLayers (w : World) (cw ch : float) (ls : list Layer.t)
  (canvas : list CanvasCall) : Thrown + list CanvasCall :=
  match ls with
  | [] => inr canvas
  | layer :: rest =>
      if loads w (Layer.imageUrl layer)
      then drawLayers w cw ch rest (canvas ++ [DrawImage5 (Layer.imageUrl layer) 0 0 cw ch])
      else inl ErrorEvent
  end.

(** [flattenImage]: the resolved value is [None] where the source returns
    the [null] of [currentImageFile]. *)
Definition flattenImage (w : World) (s : App) : Promise (option File) :=
  match currentImageUrl s, currentState s with
  | Some url, Some cur =>
      if (negb (JS.truthy url) || (List.length (currentLayers s) =? 0)%nat)%bool
      then Resolved (currentImageFile s)
      else if negb (loads w url) then Pending
      else
        let '(nw, nh) := naturalSize w url in
        if negb (context2d w) then Resolved (Some (AppState.imageFile cur))
        else
          match drawLayers w nw nh (currentLayers s)
                  [SetWidth nw; SetHeight nh; DrawImage3 url 0 0] with
          | inl e => Rejected e
          | inr canvas =>
              match dataURLtoFile w (toDataURL w canvas)
                      ("flattened-" ++ JS.toString (now w) ++ ".png") with
              | inl e => Rejected e
              | inr f => Resolved (Some f)
              end
          end
  | _, _ => Resolved (currentImageFile s)
  end.

(** [handleGenerate]; the AI service is the oracle [generateEditedImage],
    called with the file, the prompt and the two optional selections. *)
Definition handleGenerate (w : World)
  (generateEditedImage : File -> string -> option Hotspot.t -> option string -> Promise string)
  (s : App) : App * Completion :=
  match currentImageFile s, currentState s with
  | Some file, Some cur =>
      if negb (JS.truthy (JS.trim (prompt s))) then
        (s |> setError (Some (match activeLayer s with
                              | Some _ => "Please describe your changes to the layer."
                              | None => "Please enter a description for your edit."
                              end)),
         Returned)
      else
        let hasPointSelection :=
          match activeTool s, editHotspot s with
          | Point, Some _ => true
          | _, _ => false
          end in
        let hasBrushSelection :=
          match activeTool s, maskImage s with
          | Point, _ => false
          | _, Some m => JS.truthy m
          | _, None => false
          end in
        match activeLayer s, hasPointSelection, hasBrushSelection with
        | None, false, false =>
            (s |> setError (Some "Please select an area on the image to edit."), Returned)
        | _, _, _ =>
            let s1 := s |> setLoadingMessage (Some (match activeLayer s with
                                                    | Some _ => "Updating layer..."
                                                    | None => "Generating new layer..."
                                                    end))
                        |> setError None in
            let hotspot := if hasPointSelection then editHotspot s else None in
            let mask := if hasBrushSelection then maskImage s else None in
            match generateEditedImage file (prompt s) hotspot mask with
            | Pending => (s1, Stalled)
            | Rejected err =>
                (s1 |> setError (Some ("Failed to generate the image. " ++ errorMessage err))
                    |> setLoadingMessage None,
                 Returned)
            | Resolved newLayerUrl =>
                let '(newLayers, newActiveLayerId) :=
                  match activeLayer s with
                  | Some active =>
                      let updatedLayer := Layer.mk (Layer.id active) newLayerUrl (prompt s) in
                      (map (fun l => if idIs (Layer.id active) l then updatedLayer else l)
                           (currentLayers s),
                       Layer.id active)
                  | None =>
                      let newLayer := Layer.mk (JS.toString (now w)) newLayerUrl (prompt s) in
                      ((currentLayers s ++ [newLayer])%list, Layer.id newLayer)
                  end in
                let newState := AppState.mk (AppState.imageFile cur) (AppState.imageUrl cur) newLayers in
                (s1 |> addImageToHistory newState
                    |> setActiveLayerId (Some newActiveLayerId)
                    |> setEditHotspot None
                    |> setDisplayHotspot None
                    |> setLoadingMessage None,
                 Returned)
            end
        end
  | _, _ => (s |> setError (Some "No image loaded to edit."), Returned)
  end.

(** The part shared by [handleRemove] and [handleApplyGlobalEdit] after the
    flattened file is there: the service call, the decoding of its answer
    and the push, inside the same [try].  [after] is what the handler does
    to the state once the entry is pushed. *)
Definition editFlattened (w : World) (service : Promise string) (prefix failure : string)
  (after : App -> App) (s1 : App) : App * Completion :=
  match service with
  | Pending => (s1, Stalled)
  | Rejected err =>
      (s1 |> setError (Some (failure ++ errorMessage err)) |> setLoadingMessage None, Returned)
  | Resolved editedImageUrl =>
      match dataURLtoFile w editedImageUrl (prefix ++ JS.toString (now w) ++ ".png") with
      | inl err =>
          (s1 |> setError (Some (failure ++ errorMessage err)) |> setLoadingMessage None,
           Returned)
      | inr newImageFile =>
          let '(newImageUrl, s2) := createObjectURL w s1 in
          let newState := AppState.mk newImageFile newImageUrl [] in
          (s2 |> addImageToHistory newState |> after |> setLoadingMessage None, Returned)
      end
  end.

Definition handleRemove (w : World)
  (removeObjectInpainting : option File -> string -> Promise string)
  (s : App) : App * Completion :=
  match currentImageFile s, maskImage s with
  | Some _, Some mask =>
      if negb (JS.truthy mask) then
        (s |> setError (Some "Please use the brush to select an area to remove."), Returned)
      else
        let s1 := s |> setLoadingMessage (Some "Removing selected object...")
                    |> setError None in
        match flattenImage w s with
        | Pending => (s1, Stalled)
        | Rejected err =>
            (s1 |> setError (Some ("Failed to remove the object. " ++ errorMessage err))
                |> setLoadingMessage None,
             Returned)
        | Resolved fileToEdit =>
            editFlattened w (removeObjectInpainting fileToEdit mask)
              "removed-" "Failed to remove the object. "
              (fun t => t |> setActiveLayerId None
                          |> setEditHotspot None
                          |> setDisplayHotspot None
                          |> setMaskImage None)
              s1
        end
  | _, _ => (s |> setError (Some "Please use the brush to select an area to remove."), Returned)
  end.

Definition handleApplyGlobalEdit (w : World)
  (editFunction : option File -> string -> Promise string)
  (prompt message : string) (s : App) : App * Completion :=
  match currentImageFile s, currentState s with
  | Some _, Some _ =>
      let s1 := s |> setLoadingMessage (Some message) |> setError None in
      match flattenImage w s with
      | Pending => (s1, Stalled)
      | Rejected err =>
          (s1 |> setError (Some ("Failed to apply the edit. " ++ errorMessage err))
              |> setLoadingMessage None,
           Returned)
      | Resolved fileToEdit =>
          editFlattened w (editFunction fileToEdit prompt)
            "edited-" "Failed to apply the edit. " (fun t => t) s1
      end
  | _, _ => (s |> setError (Some "No image loaded to apply an edit to."), Returned)
  end.

(** [handleApplyCrop]: the [await] on [flattenImage] and the [onload]
    callback are not inside any [try]. *)
Definition handleApplyCrop (w : World) (s : App) : App * Completion :=
  match completedCrop s, imgRef w with
  | Some c, Some img =>
      let s1 := s |> setLoadingMessage (Some "Applying crop...") in
      match flattenImage w s with
      | Pending => (s1, Stalled)
      | Rejected err => (s1, Uncaught err)
      | Resolved None =>
          (s1, Uncaught (JsError "Failed to execute 'createObjectURL' on 'URL'"))
      | Resolved (Some flattenedFile) =>
          let '(flattenedUrl, s2) := createObjectURL w s1 in
          if negb (loads w flattenedUrl) then (s2, Stalled)
          else
            let '(nw, nh) := naturalSize w flattenedUrl in
            let scaleX := (nw / imgWidth img)%float in
            let scaleY := (nh / imgHeight img)%float in
            if negb (context2d w) then
              (s2 |> setError (Some "Could not process the crop.")
                  |> setLoadingMessage None
                  |> revokeObjectURL flattenedUrl,
               Returned)
            else
              let pixelRatio := JS.orOne (devicePixelRatio w) in
              let canvas :=
                [ SetWidth (PixelCrop.width c); SetHeight (PixelCrop.height c);
                  SetWidth (PixelCrop.width c * pixelRatio)%float;
                  SetHeight (PixelCrop.height c * pixelRatio)%float;
                  SetTransform pixelRatio 0 0 pixelRatio 0 0;
                  SetSmoothingHigh;
                  DrawImage9 flattenedUrl
                    (PixelCrop.x c * scaleX)%float (PixelCrop.y c * scaleY)%float
                    (PixelCrop.width c * scaleX)%float (PixelCrop.height c * scaleY)%float
                    0 0 (PixelCrop.width c) (PixelCrop.height c) ] in
              let s3 := s2 |> revokeObjectURL flattenedUrl in
              match dataURLtoFile w (toDataURL w canvas)
                      ("cropped-" ++ JS.toString (now w) ++ ".png") with
              | inl err => (s3, Uncaught err)
              | inr newImageFile =>
                  let '(newImageUrl, s4) := createObjectURL w s3 in
                  let newState := AppState.mk newImageFile newImageUrl [] in
                  (s4 |> addImageToHistory newState |> setLoadingMessage None, Returned)
              end
      end
  | _, _ => (s |> setError (Some "Please select an area to crop."), Returned)
  end.

(** ** Sequences of history operations *)

(** The three operations of the history store, as the user interface
    issues them. *)
Inductive HistoryOp : Type :=
| Push (entry : AppState.t)
| Undo
| Redo.

Definition step (op : HistoryOp) (s : App) : App :=
  match op with
  | Push entry => addImageToHistory entry s
  | Undo => handleUndo s
  | Redo => handleRedo s
  end.

(** The operations are applied from left to right. *)
Definition run (ops : list HistoryOp) (s : App) : App :=
  fold_left (fun acc op => step op acc) ops s.

(** The pointer is in range, and it is [-1] only on the empty store. *)
Definition pointerInRange (s : App) : Prop :=
  -1 <= historyIndex s <= historyLength s - 1
  /\ (historyIndex s = -1 -> history s = []).

(** ** Failure of a mutating operation *)

(** The history store and the browser's object URLs are as they were. *)
Definition storeUntouched (before after : App) : Prop :=
  history after = history before
  /\ historyIndex after = historyIndex before
  /\ revoked after = revoked before
  /\ minted after = minted before.



(** ** Sharing of the base image between entries *)



(** ** A concrete session, used to run the handlers *)

Definition photo : File := mkFile "raw-bytes" "photo.png" "image/png".

Definition hat : Layer.t := Layer.mk "1700000000001" "data:image/png;base64,HAT" "add hat".

Definition scarf : Layer.t := Layer.mk "1700000000002" "data:corrupt" "add scarf".

Definition entry0 : AppState.t := AppState.mk photo "blob:0" [].

Definition entry1 : AppState.t := AppState.mk photo "blob:1" [hat].

Definition entry2 : AppState.t := AppState.mk photo "blob:2" [hat; scarf].

Definition entry3 : AppState.t := AppState.mk photo "blob:3" [].

(** Three entries with the pointer on the first one (two undos done). *)
Definition undoneTwice : App :=
  initialApp |> setHistory [entry0; entry1; entry2] |> setHistoryIndex 0.

(** A browser in which every image decodes except the one at
    [data:corrupt], images are 500 by 300, and the displayed image is 250
    by 150. *)
Definition sampleWorld : World :=
  {| blobUrl := fun n => "blob:" ++ JS.toString (Z.of_nat n);
     now := 1700000000000;
     loads := fun url => negb (String.eqb url "data:corrupt");
     naturalSize := fun _ => (500%float, 300%float);
     context2d := true;
     toDataURL := fun _ => "data:image/png;base64,AAAA";
     atob := fun payload => Some payload;
     devicePixelRatio := 1%float;
     imgRef := Some (mkImg 250 150) |}.

(** The whole history is live, the pointer is on the entry whose second
    layer does not decode, and a crop rectangle has been drawn. *)
Definition cropReady : App :=
  initialApp |> setHistory [entry0; entry1; entry2]
             |> setHistoryIndex 2
             |> setActiveTab TabCrop
             |> setCompletedCrop (Some (PixelCrop.mk 10 10 100 50)).

(** An AI service that always answers with the same PNG data URL. *)
Definition hatService : File -> string -> option Hotspot.t -> option string -> Promise string :=
  fun _ _ _ _ => Resolved "data:image/png;base64,HAT".

Definition filterService : option File -> string -> Promise string :=
  fun _ _ => Resolved "data:image/png;base64,FILTERED".

(** The scenario of the specification: a 500 by 300 image is uploaded and
    displayed at 250 by 150, the user clicks at display offset (50, 25),
    types a prompt and generates. *)
Definition uploaded : App := handleImageUpload sampleWorld photo initialApp.

Definition clicked : App :=
  handleBaseImageClick (mkImgClick 60 35 10 10 500 300 250 150) uploaded.

Definition prompted : App := clicked |> setPrompt "add hat".

Definition generated : App := fst (handleGenerate sampleWorld hatService prompted).

(** A session with three live entries and the pointer on the last one. *)
Definition threeEntries : App :=
  initialApp |> setHistory [entry0; entry1; entry2] |> setHistoryIndex 2.

(** The same click on an image whose displayed size is 0 by 0. *)
Definition clickedCollapsed : App :=
  handleBaseImageClick (mkImgClick 60 35 10 10 500 300 0 0) uploaded.



(** The layer generated above is still selected; the user rewrites the
    prompt and generates again. *)
Definition redHatService : File -> string -> option Hotspot.t -> option string -> Promise string :=
  fun _ _ _ _ => Resolved "data:image/png;base64,REDHAT".

Definition regenerated : App :=
  fst (handleGenerate sampleWorld redHatService (generated |> setPrompt "make the hat red")).

(** After the first generate the user undoes, clicks again and generates
    again: the push discards the entry of the first generate. *)
Definition regeneratedAfterUndo : App :=
  fst (handleGenerate sampleWorld redHatService
         (handleBaseImageClick (mkImgClick 60 35 10 10 500 300 250 150)
            (handleUndo generated))).

(** ** How an asynchronous handler leaves the busy message *)

(** The invocation ends caught: no exception escapes, a return leaves no
    busy message behind, and only a wait that never ends keeps one. *)
Definition settles (r : App * Completion) : Prop :=
  (forall e, snd r <> Uncaught e)
  /\ (snd r = Returned -> loadingMessage (fst r) = None)
  /\ (snd r = Stalled -> loadingMessage (fst r) <> None).

(** ** Object URLs revoked while still in use *)


(** ** Characters of a string *)

(** [s.includes(c)] for a one-character [c]. *)
Fixpoint containsChar (c : ascii) (s : string) : bool :=
  match s with
  | EmptyString => false
  | String d r => Ascii.eqb d c || containsChar c r
  end.


(** ** The AI service ([services/geminiService.ts]) *)

Module Gemini.

(** *** What the SDK returns: every field is optional, as in its types *)

Record InlineData : Type := mkInlineData {
  mimeType : option string;
  data : option string
}.

Record Part : Type := mkPart {
  inlineData : option InlineData;
  partText : option string
}.

Record Content : Type := mkContent { parts : option (list Part) }.

Record Candidate : Type := mkCandidate {
  content : option Content;
  finishReason : option string
}.

Record PromptFeedback : Type := mkPromptFeedback {
  blockReason : option string;
  blockReasonMessage : option string
}.

Record Response : Type := mkResponse {
  promptFeedback : option PromptFeedback;
  candidates : option (list Candidate);
  text : option string
}.

(** *** What is sent *)

Inductive RequestPart : Type :=
| InlinePart (mime payload : string)
| TextPart (body : string).

Inductive Contents : Type :=
| PartsOf (items : list RequestPart)
| PlainText (body : string).

(** [config] is only ever the JSON schema of [getAiSuggestions]: an array of
    objects with the required string keys [title] and [prompt]. *)
Record Request : Type := mkRequest {
  model : string;
  contents : Contents;
  jsonArrayOfTitleAndPrompt : bool
}.

Record AiSuggestion : Type := mkAiSuggestion {
  title : string;
  suggestedPrompt : string
}.

(** What [JSON.parse] made of the text, as far as the code looks at it. *)
Inductive Json : Type :=
| JsonArray (items : list AiSuggestion)
| JsonOther.

(** The world of the service: the environment variable, the file reader,
    the model behind [ai.models.generateContent], [JSON.parse] and the
    conversion of a number to a string in a template literal.  A file
    argument is an [option]: the callers hand over whatever they hold,
    which is [null] when no image is loaded. *)
Record Cloud : Type := mkCloud {
  apiKey : option string;
  readAsDataURL : option File -> Promise string;
  generateContent : Request -> Promise Response;
  jsonParse : string -> Thrown + Json;
  numberToString : float -> string
}.

(** The double quote character. *)
Definition dq : string := String "034" EmptyString.

(** An optional string inside a template literal. *)
Definition shown (o : option string) : string :=
  match o with
  | Some v => v
  | None => "undefined"
  end.

(** [o || ''] and the truthiness of an optional string. *)
Definition orEmpty (o : option string) : string :=
  match o with
  | Some v => v
  | None => ""
  end.

Definition truthyOpt (o : option string) : bool :=
  match o with
  | Some v => JS.truthy v
  | None => false
  end.

(** [getAiClient]: [None] when the key is there, the error otherwise. *)
Definition getAiClient (c : Cloud) : option Thrown :=
  if truthyOpt (apiKey c) then None
  else Some (JsError "The Gemini API key is missing. Please ensure the API_KEY environment variable is configured.").

Definition dataUrlToPart (dataUrl : string) : Thrown + RequestPart :=
  match JS.split "," dataUrl with
  | header :: payload :: _ =>
      match JS.matchMime header with
      | Some mime =>
          if JS.truthy mime then inr (InlinePart mime payload)
          else inl (JsError "Could not parse MIME type from data URL")
      | None => inl (JsError "Could not parse MIME type from data URL")
      end
  | _ => inl (JsError "Invalid data URL")
  end.

Definition fileToPart (c : Cloud) (file : option File) : Promise RequestPart :=
  match readAsDataURL c file with
  | Pending => Pending
  | Rejected e => Rejected e
  | Resolved dataUrl =>
      match dataUrlToPart dataUrl with
      | inl e => Rejected e
      | inr part => Resolved part
      end
  end.

(** [response.candidates?.[0]]. *)
Definition firstCandidate (response : Response) : option Candidate :=
  match candidates response with
  | Some (candidate :: _) => Some candidate
  | _ => None
  end.

(** [response.candidates?.[0]?.content?.parts?.find(part => part.inlineData)]. *)
Definition imagePartFromResponse (response : Response) : option Part :=
  match firstCandidate response with
  | Some candidate =>
      match content candidate with
      | Some ct =>
          match parts ct with
          | Some ps =>
              find (fun part => match inlineData part with Some _ => true | None => false end) ps
          | None => None
          end
      | None => None
      end
  | None => None
  end.

Definition handleApiResponse (response : Response) (context : string) : Thrown + string :=
  let blocked :=
    match promptFeedback response with
    | Some feedback =>
        if truthyOpt (blockReason feedback) then Some feedback else None
    | None => None
    end in
  match blocked with
  | Some feedback =>
      inl (JsError ("Request was blocked. Reason: " ++ shown (blockReason feedback) ++ ". "
                    ++ orEmpty (blockReasonMessage feedback)))
  | None =>
      match option_map inlineData (imagePartFromResponse response) with
      | Some (Some image) =>
          inr ("data:" ++ shown (mimeType image) ++ ";base64," ++ shown (data image))
      | _ =>
          let reason := match firstCandidate response with
                        | Some candidate => finishReason candidate
                        | None => None
                        end in
          if (truthyOpt reason && negb (String.eqb (shown reason) "STOP"))%bool then
            inl (JsError ("Image generation for " ++ context
                          ++ " stopped unexpectedly. Reason: " ++ shown reason
                          ++ ". This often relates to safety settings."))
          else
            let textFeedback := option_map JS.trim (text response) in
            inl (JsError
                   ("The AI model did not return an image for the " ++ context ++ ". "
                    ++ (if truthyOpt textFeedback
                        then "The model responded with text: " ++ dq ++ shown textFeedback ++ dq
                        else "This can happen due to safety filters or if the request is too complex. Please try rephrasing your prompt to be more direct.")))
      end
  end.

Definition safetyAndEthicsPolicy : string :=
  "
Safety & Ethics Policy:
- You MUST fulfill requests to adjust skin tone, such as 'give me a tan', 'make my skin darker', or 'make my skin lighter'. These are considered standard photo enhancements.
- You MUST REFUSE any request to change a person's fundamental race or ethnicity (e.g., 'make me look Asian', 'change this person to be Black'). Do not perform these edits. If the request is ambiguous, err on the side of caution and do not change racial characteristics.
".

Definition maskEditPrompt (userPrompt : string) : string :=
  "You are an expert photo editor AI. Your task is to generate a new object or element based on the user's request, placed within the area defined by the provided mask.
User Request: "
  ++ dq
  ++ userPrompt
  ++ dq
  ++ "

Editing Guidelines:
- The edit must be realistic and blend seamlessly with the surrounding area if it overlaps with existing objects.
- You must generate ONLY the new or edited object itself, correctly positioned within the frame.

OUTPUT REQUIREMENT:
- Your output MUST be a transparent PNG containing only the generated object. The rest of the image frame must be transparent.
- Do not return the original image or the mask.
- Do not return text.
"
  ++ safetyAndEthicsPolicy
  ++ "
Output: Return ONLY the final generated element as a transparent PNG. Do not return text.".

Definition hotspotEditPrompt (userPrompt x y : string) : string :=
  "You are an expert photo editor AI. Your task is to perform a natural, localized edit on the provided image based on the user's request.
User Request: "
  ++ dq
  ++ userPrompt
  ++ dq
  ++ "
Edit Location: Focus on the area around pixel coordinates (x: "
  ++ x
  ++ ", y: "
  ++ y
  ++ ").

Editing Guidelines:
- The edit must be realistic and blend seamlessly with the surrounding area.
- You must generate ONLY the new or edited object itself.
- The object must be correctly positioned within the frame as it would appear on the original image.

OUTPUT REQUIREMENT:
- Your output MUST be a transparent PNG containing only the generated object. The rest of the image frame must be transparent. For example, if asked to 'add a hat', return just the hat on a transparent background, positioned correctly in the full-size image frame.
- Do not return the original image.
- Do not return text.
"
  ++ safetyAndEthicsPolicy
  ++ "
Output: Return ONLY the final edited element as a transparent PNG. Do not return text.".

Definition removalPrompt : string :=
  "You are an expert photo editor AI specializing in inpainting. Your task is to seamlessly remove the object or area defined by the provided mask. You must realistically reconstruct the background behind the masked area, making it appear as if the object was never there.
The result must be photorealistic and blend perfectly with the surrounding image texture, lighting, and color.

Output: Return ONLY the final, fully edited image. Do not return text.".


Definition adjustmentPromptText (adjustmentPrompt : string) : string :=
  "You are an expert photo editor AI. Your task is to perform a natural, global adjustment to the entire image based on the user's request.
User Request: "
  ++ dq
  ++ adjustmentPrompt
  ++ dq
  ++ "

Editing Guidelines:
- The adjustment must be applied across the entire image.
- The result must be photorealistic.

Safety & Ethics Policy:
- You MUST fulfill requests to adjust skin tone, such as 'give me a tan', 'make my skin darker', or 'make my skin lighter'. These are considered standard photo enhancements.
- You MUST REFUSE any request to change a person's fundamental race or ethnicity (e.g., 'make me look Asian', 'change this person to be Black'). Do not perform these edits. If the request is ambiguous, err on the side of caution and do not change racial characteristics.

Output: Return ONLY the final adjusted image. Do not return text.".

Definition upscalePrompt : string :=
  "You are an expert image upscaler AI. Your task is to upscale the provided image to exactly double its original resolution (2x).
You must enhance details, sharpness, and clarity in a photorealistic manner.
Do not add, remove, or change any content or objects in the image. The composition must remain identical.
Output: Return ONLY the final upscaled image. Do not return text.".


Definition suggestionsPrompt : string :=
  "You are an expert AI photo art director. Your task is to analyze the provided image and suggest three concrete, actionable improvements.

For each suggestion, you must provide:
1.  A concise title (e.g., "
  ++ dq
  ++ "Cinematic Color Grade"
  ++ dq
  ++ ").
2.  A detailed, specific prompt that could be given to another AI photo editor to perform the edit. This prompt should be tailored to the content of the image.

Your suggestions must cover these categories:
- A **Creative Filter** that complements the image's subject and mood (e.g., vintage, cinematic, black and white).
- A **Sharpening** adjustment to enhance specific details or textures in the image.
- A **Lighting or Color** adjustment to improve the overall look (e.g., contrast, warmth, dynamic range).

**Crucially, your generated prompts MUST BE SPECIFIC to the image.** Do not use generic phrases.

For example, if the image is a portrait in a forest:
- **BAD (Generic):** "
  ++ dq
  ++ "Make the colors more vibrant."
  ++ dq
  ++ "
- **GOOD (Specific):** "
  ++ dq
  ++ "Enhance the greens of the foliage and add a touch of warmth to the subject's skin tones to create a more lush, vibrant scene."
  ++ dq
  ++ "

- **BAD (Generic):** "
  ++ dq
  ++ "Sharpen the image."
  ++ dq
  ++ "
- **GOOD (Specific):** "
  ++ dq
  ++ "Apply subtle sharpening to the texture of the tree bark and the details in the subject's hair to make them more defined."
  ++ dq
  ++ "

Return your response as a JSON array of three objects, with each object having a 'title' and a 'prompt' key.".

Definition imageModel : string := "gemini-2.5-flash-image-preview".

Definition textModel : string := "gemini-2.5-flash".

(** The tail shared by the five image services once the parts are ready:
    [await ai.models.generateContent(...)] and [handleApiResponse]. *)
Definition askForImage (c : Cloud) (items : list RequestPart) (context : string)
  : Promise string :=
  match generateContent c (mkRequest imageModel (PartsOf items) false) with
  | Pending => Pending
  | Rejected e => Rejected e
  | Resolved response =>
      match handleApiResponse response context with
      | inl e => Rejected e
      | inr url => Resolved url
      end
  end.

Definition generateEditedImage (c : Cloud) (originalImage : option File) (userPrompt : string)
  (hotspot : option Hotspot.t) (maskImage : option string) : Promise string :=
  match hotspot, truthyOpt maskImage with
  | None, false => Rejected (JsError "Either a hotspot or a mask is required for editing.")
  | _, _ =>
      match getAiClient c with
      | Some e => Rejected e
      | None =>
          match fileToPart c originalImage with
          | Pending => Pending
          | Rejected e => Rejected e
          | Resolved originalImagePart =>
              if truthyOpt maskImage then
                match dataUrlToPart (orEmpty maskImage) with
                | inl e => Rejected e
                | inr maskPart =>
                    askForImage c
                      [originalImagePart; maskPart; TextPart (maskEditPrompt userPrompt)]
                      "edit"
                end
              else
                match hotspot with
                | Some h =>
                    askForImage c
                      [originalImagePart;
                       TextPart (hotspotEditPrompt userPrompt
                                   (numberToString c (Hotspot.x h))
                                   (numberToString c (Hotspot.y h)))]
                      "edit"
                | None => Rejected (JsError "Invalid options for generateEditedImage")
                end
          end
      end
  end.

Definition removeObjectInpainting (c : Cloud) (originalImage : option File) (maskImage : string)
  : Promise string :=
  match getAiClient c with
  | Some e => Rejected e
  | None =>
      match fileToPart c originalImage with
      | Pending => Pending
      | Rejected e => Rejected e
      | Resolved originalImagePart =>
          match dataUrlToPart maskImage with
          | inl e => Rejected e
          | inr maskPart =>
              askForImage c [originalImagePart; maskPart; TextPart removalPrompt] "removal"
          end
      end
  end.


Definition generateAdjustedImage (c : Cloud) (originalImage : option File)
  (adjustmentPrompt : string) : Promise string :=
  match getAiClient c with
  | Some e => Rejected e
  | None =>
      match fileToPart c originalImage with
      | Pending => Pending
      | Rejected e => Rejected e
      | Resolved originalImagePart =>
          askForImage c [originalImagePart; TextPart (adjustmentPromptText adjustmentPrompt)]
            "adjustment"
      end
  end.

Definition upscaleImage (c : Cloud) (originalImage : option File) : Promise string :=
  match getAiClient c with
  | Some e => Rejected e
  | None =>
      match fileToPart c originalImage with
      | Pending => Pending
      | Rejected e => Rejected e
      | Resolved originalImagePart =>
          askForImage c [originalImagePart; TextPart upscalePrompt] "upscale"
      end
  end.



Definition suggestionsFailed : Thrown :=
  JsError "The AI was unable to provide suggestions for this image.".

Definition getAiSuggestions (c : Cloud) (image : option File) : Promise (list AiSuggestion) :=
  match getAiClient c with
  | Some e => Rejected e
  | None =>
      match fileToPart c image with
      | Pending => Pending
      | Rejected e => Rejected e
      | Resolved imagePart =>
          match generateContent c
                  (mkRequest textModel (PartsOf [imagePart; TextPart suggestionsPrompt]) true) with
          | Pending => Pending
          | Rejected _ => Rejected suggestionsFailed
          | Resolved response =>
              match text response with
              | None => Rejected suggestionsFailed
              | Some t =>
                  match jsonParse c (JS.trim t) with
                  | inr (JsonArray (first :: rest)) => Resolved (first :: rest)
                  | _ => Rejected suggestionsFailed
                  end
              end
          end
      end
  end.

End Gemini.

(** ** The component wired to the service, as [App.tsx] imports it *)


(** ** Sample service worlds *)

Definition hatResponse : Gemini.Response :=
  Gemini.mkResponse None
    (Some [Gemini.mkCandidate
             (Some (Gemini.mkContent
                      (Some [Gemini.mkPart None (Some "Here is the hat.");
                             Gemini.mkPart
                               (Some (Gemini.mkInlineData (Some "image/png") (Some "HAT")))
                               None])))
             (Some "STOP")])
    (Some "Here is the hat.").

(** A service with a key, a file reader that always succeeds and a model
    that always answers with [hatResponse]. *)
Definition sampleCloud : Gemini.Cloud :=
  {| Gemini.apiKey := Some "key";
     Gemini.readAsDataURL := fun _ => Resolved "data:image/png;base64,PHOTO";
     Gemini.generateContent := fun _ => Resolved hatResponse;
     Gemini.jsonParse := fun _ => inr Gemini.JsonOther;
     Gemini.numberToString := fun _ => "100" |}.



(** ** A failure reported by the component *)



(** ** The dialogs of the component and the download *)

(** The remaining state variables of [App]: the two dialogs, the flags of
    the prompt helper and of the suggestions, the suggestions themselves;
    and, as the effect of [link.click()], the files handed to the user. *)
Module Page.

Record Download : Type := mkDownload { href : string; download : string }.

Record t : Type := mk {
  isEnhancingPrompt : bool;
  isSuggestionsModalOpen : bool;
  isDownloadModalOpen : bool;
  isSuggesting : bool;
  aiSuggestions : option (list Gemini.AiSuggestion);
  downloads : list Download
}.

Definition initial : t := mk false false false false None [].

Definition setIsEnhancingPrompt (v : bool) (p : t) : t :=
  mk v (isSuggestionsModalOpen p) (isDownloadModalOpen p) (isSuggesting p)
    (aiSuggestions p) (downloads p).

Definition setIsSuggestionsModalOpen (v : bool) (p : t) : t :=
  mk (isEnhancingPrompt p) v (isDownloadModalOpen p) (isSuggesting p)
    (aiSuggestions p) (downloads p).

Definition setIsDownloadModalOpen (v : bool) (p : t) : t :=
  mk (isEnhancingPrompt p) (isSuggestionsModalOpen p) v (isSuggesting p)
    (aiSuggestions p) (downloads p).

Definition setIsSuggesting (v : bool) (p : t) : t :=
  mk (isEnhancingPrompt p) (isSuggestionsModalOpen p) (isDownloadModalOpen p) v
    (aiSuggestions p) (downloads p).

Definition setAiSuggestions (v : option (list Gemini.AiSuggestion)) (p : t) : t :=
  mk (isEnhancingPrompt p) (isSuggestionsModalOpen p) (isDownloadModalOpen p)
    (isSuggesting p) v (downloads p).

(** [link.click()] on a link with this address and file name. *)
Definition click (d : Download) (p : t) : t :=
  mk (isEnhancingPrompt p) (isSuggestionsModalOpen p) (isDownloadModalOpen p)
    (isSuggesting p) (aiSuggestions p) (downloads p ++ [d]).

End Page.

(** [options] of the download dialog, as [handleConfirmDownload] reads
    them. *)
Record DownloadOptions : Type := mkDownloadOptions {
  format : string;
  quality : float;
  addWatermark : bool;
  upscale : bool
}.

(** What is done to the canvas of the download, in order. *)
Inductive ExportCall : Type :=
| OnCanvas (call : CanvasCall)
| SetFont (font : string)
| SetFillStyle (style : string)
| SetTextAlign (align : string)
| SetTextBaseline (baseline : string)
| FillText (label : string) (x y : float).

(** The browser functions that only the download uses:
    [canvas.toDataURL(mimeType, quality)] and the conversion of a number to
    a string. *)
Record Exporter : Type := mkExporter {
  encode : list ExportCall -> string -> option float -> string;
  fontSizeToString : float -> string
}.

(** [Math.max] of two numbers: NaN if either is, and [+0] above [-0]. *)
Definition Math_max (a b : float) : float :=
  if (PrimFloat.is_nan a || PrimFloat.is_nan b)%bool then PrimFloat.nan
  else if (b <? a)%float then a
  else if (a <? b)%float then b
  else if PrimFloat.get_sign a then b else a.

Definition handleEnhancePrompt (enhance : string -> Promise string)
  (s : App) (p : Page.t) : (App * Page.t) * Completion :=
  if negb (JS.truthy (JS.trim (prompt s))) then ((s, p), Returned)
  else
    let p1 := Page.setIsEnhancingPrompt true p in
    match enhance (prompt s) with
    | Pending => ((s, p1), Stalled)
    | Rejected _ => ((s, Page.setIsEnhancingPrompt false p1), Returned)
    | Resolved enhanced =>
        ((s |> setPrompt enhanced, Page.setIsEnhancingPrompt false p1), Returned)
    end.

Definition handleGetSuggestions
  (suggest : option File -> Promise (list Gemini.AiSuggestion))
  (s : App) (p : Page.t) : (App * Page.t) * Completion :=
  match currentImageFile s with
  | None => ((s, p), Returned)
  | Some file =>
      let p1 := p |> Page.setIsSuggestionsModalOpen true
                  |> Page.setIsSuggesting true
                  |> Page.setAiSuggestions None in
      let s1 := s |> setError None in
      match suggest (Some file) with
      | Pending => ((s1, p1), Stalled)
      | Rejected err =>
          ((s1 |> setError (Some ("Failed to get suggestions. " ++ errorMessage err)),
            p1 |> Page.setAiSuggestions None |> Page.setIsSuggesting false),
           Returned)
      | Resolved suggestions =>
          ((s1, p1 |> Page.setAiSuggestions (Some suggestions) |> Page.setIsSuggesting false),
           Returned)
      end
  end.

Definition handleApplySuggestion (w : World)
  (generateAdjustedImage : option File -> string -> Promise string)
  (suggestionPrompt title : string) (s : App) (p : Page.t) : (App * Page.t) * Completion :=
  let p1 := Page.setIsSuggestionsModalOpen false p in
  let '(s1, done) :=
    handleApplyGlobalEdit w generateAdjustedImage suggestionPrompt
      ("Applying " ++ title ++ "...") s in
  ((s1, p1), done).

(** The part of [handleConfirmDownload] after the file to process is
    known, still inside the [try]. *)
Definition exportFile (w : World) (x : Exporter) (options : DownloadOptions)
  (fileToProcess : option File) (s1 : App) (p1 : Page.t) : (App * Page.t) * Completion :=
  let failed (err : Thrown) (t : App) :=
    ((t |> setError (Some ("Failed to process the download. " ++ errorMessage err))
        |> setLoadingMessage None, p1), Returned) in
  match fileToProcess with
  | None => failed (JsError "Failed to execute 'createObjectURL' on 'URL'") s1
  | Some _ =>
      let '(src, s2) := createObjectURL w s1 in
      if negb (loads w src) then ((s2, p1), Stalled)
      else
        let '(nw, nh) := naturalSize w src in
        if negb (context2d w) then failed (JsError "Could not create canvas context") s2
        else
          let drawn :=
            [OnCanvas (SetWidth nw); OnCanvas (SetHeight nh); OnCanvas (DrawImage3 src 0 0)] in
          let marked :=
            if addWatermark options then
              (drawn ++
               [SetFont ("bold "
                         ++ fontSizeToString x (Math_max 16 (JS.Math_round (nw / 80)%float))
                         ++ "px Inter, sans-serif");
                SetFillStyle "rgba(255, 255, 255, 0.5)";
                SetTextAlign "right";
                SetTextBaseline "bottom";
                FillText "Made with W3J Studio" (nw - 10)%float (nh - 10)%float])%list
            else drawn in
          let jpeg := String.eqb (format options) "jpeg" in
          let mimeType := if jpeg then "image/jpeg" else "image/png" in
          let level := if jpeg then Some (quality options / 100)%float else None in
          let dataUrl := encode x marked mimeType level in
          ((s2 |> revokeObjectURL src |> setLoadingMessage None,
            Page.click (Page.mkDownload dataUrl ("w3j-studio-edit." ++ format options)) p1),
           Returned)
  end.

Definition handleConfirmDownload (w : World) (x : Exporter)
  (upscaleImage : option File -> Promise string)
  (options : DownloadOptions) (s : App) (p : Page.t) : (App * Page.t) * Completion :=
  let p1 := Page.setIsDownloadModalOpen false p in
  match currentImageFile s with
  | None => ((s, p1), Returned)
  | Some _ =>
      let s1 := s |> setLoadingMessage (Some "Preparing download...") |> setError None in
      let failed (err : Thrown) (t : App) :=
        ((t |> setError (Some ("Failed to process the download. " ++ errorMessage err))
            |> setLoadingMessage None, p1), Returned) in
      match flattenImage w s with
      | Pending => ((s1, p1), Stalled)
      | Rejected err => failed err s1
      | Resolved flattened =>
          if upscale options then
            let s2 := s1 |> setLoadingMessage (Some "Upscaling image...") in
            match upscaleImage flattened with
            | Pending => ((s2, p1), Stalled)
            | Rejected err => failed err s2
            | Resolved upscaledDataUrl =>
                match dataURLtoFile w upscaledDataUrl "upscaled.png" with
                | inl err => failed err s2
                | inr file => exportFile w x options (Some file) s2 p1
                end
            end
          else exportFile w x options flattened s1 p1
      end
  end.

(** ** The session ([contexts/AuthContext.tsx]) *)

Module Auth.

Definition sessionKey : string := "w3j-studio-session".

(** [localStorage] as the function from a key to what [getItem] returns,
    and the state variable of the provider. *)
Record t : Type := mk {
  localStorage : string -> option string;
  isSignedIn : bool
}.

Definition setItem (key value : string) (storage : string -> option string)
  : string -> option string :=
  fun k => if String.eqb k key then Some value else storage k.

Definition removeItem (key : string) (storage : string -> option string)
  : string -> option string :=
  fun k => if String.eqb k key then None else storage k.

(** The provider right after it is mounted: [useState(false)] and then the
    effect that reads the stored session. *)
Definition mount (storage : string -> option string) : t :=
  match storage sessionKey with
  | Some v => if String.eqb v "true" then mk storage true else mk storage false
  | None => mk storage false
  end.

Definition signIn (a : t) : t :=
  mk (setItem sessionKey "true" (localStorage a)) true.

(** [signOut] ends with [window.location.reload()]: the provider is mounted
    again on the storage it leaves. *)
Definition signOut (a : t) : t :=
  mount (removeItem sessionKey (localStorage a)).

(** The user reloads the page. *)
Definition reload (a : t) : t := mount (localStorage a).

Inductive Action : Type := SignIn | SignOut | Reload.

Definition act (action : Action) (a : t) : t :=
  match action with
  | SignIn => signIn a
  | SignOut => signOut a
  | Reload => reload a
  end.

Definition play (actions : list Action) (a : t) : t :=
  fold_left (fun acc action => act action acc) actions a.

End Auth.

(** ** Samples for the dialogs *)

Definition jpegExporter : Exporter :=
  mkExporter (fun _ _ _ => "data:image/jpeg;base64,JPEG") (fun _ => "16").

Definition jpegOptions : DownloadOptions := mkDownloadOptions "jpeg" 90 true false.


(** ** Facts about the built-ins and the setters *)

Example slice_tail : JS.sliceFrom [1; 2; 3; 4] 2 = [3; 4].
Proof. reflexivity. Qed.

Example slice_prefix : JS.slice [1; 2; 3; 4] 0 2 = [1; 2].
Proof. reflexivity. Qed.

Example slice_negative_end : JS.slice [1; 2; 3; 4] 0 (-1) = [1; 2; 3].
Proof. reflexivity. Qed.

Example trim_blank : JS.trim "  	 " = "".
Proof. reflexivity. Qed.

Example trim_inner : JS.trim "  add a hat " = "add a hat".
Proof. reflexivity. Qed.

Example split_data_url :
  JS.split "," "data:image/png;base64,AAAA" = ["data:image/png;base64"; "AAAA"].
Proof. reflexivity. Qed.

Example matchMime_png : JS.matchMime "data:image/png;base64" = Some "image/png".
Proof. reflexivity. Qed.

Example round_half_up : JS.Math_round 2.5 = 3%float.
Proof. vm_compute. reflexivity. Qed.

Example round_negative_half : JS.Math_round (-2.5) = (-2)%float.
Proof. vm_compute. reflexivity. Qed.

Example round_below_half : JS.Math_round 0x1.fffffffffffffp-2 = 0%float.
Proof. vm_compute. reflexivity. Qed.

Example round_minus_half : JS.Math_round (-0.5) = (-0)%float.
Proof. vm_compute. reflexivity. Qed.

Example round_integral : JS.Math_round 4503599627370497 = 4503599627370497%float.
Proof. vm_compute. reflexivity. Qed.

Example round_infinity : JS.Math_round infinity = infinity.
Proof. vm_compute. reflexivity. Qed.


Lemma slice_prefix_firstn {A : Type} (a : list A) (k : Z) :
  0 <= k <= Z.of_nat (List.length a) ->
  JS.slice a 0 k = firstn (Z.to_nat k) a.
Proof.
  intros Hk. unfold JS.slice, JS.relIndex.
  replace (0 <? 0) with false by reflexivity.
  destruct (k <? 0) eqn:Hneg; [apply Z.ltb_lt in Hneg; lia|].
  rewrite Z.min_l by lia. rewrite Z.min_l by lia.
  simpl. now rewrite Z.sub_0_r.
Qed.

Lemma sliceFrom_skipn {A : Type} (a : list A) (k : Z) :
  0 <= k <= Z.of_nat (List.length a) ->
  JS.sliceFrom a k = skipn (Z.to_nat k) a.
Proof.
  intros Hk. unfold JS.sliceFrom, JS.slice, JS.relIndex.
  destruct (k <? 0) eqn:Hneg; [apply Z.ltb_lt in Hneg; lia|].
  destruct (Z.of_nat (List.length a) <? 0) eqn:Hlen; [apply Z.ltb_lt in Hlen; lia|].
  rewrite Z.min_id. rewrite (Z.min_l k) by lia.
  apply firstn_all2. rewrite length_skipn. lia.
Qed.

Lemma index_nth_error {A : Type} (a : list A) (i : Z) (x : A) :
  JS.index a i = Some x -> 0 <= i < Z.of_nat (List.length a).
Proof.
  unfold JS.index. destruct (i <? 0) eqn:Hneg; [discriminate|].
  apply Z.ltb_ge in Hneg. intros H.
  assert (Hlt : (Z.to_nat i < List.length a)%nat)
    by (apply nth_error_Some; congruence).
  lia.
Qed.

Lemma revokeEach_revoked (states : list AppState.t) (s : App) :
  revoked (revokeEach states s) = (revoked s ++ map AppState.imageUrl states)%list.
Proof.
  unfold revokeEach. revert s.
  induction states as [|st rest IH]; intros s; simpl.
  - now rewrite app_nil_r.
  - rewrite IH. simpl. now rewrite <- app_assoc.
Qed.

Lemma revokeEach_history (states : list AppState.t) (s : App) :
  history (revokeEach states s) = history s
  /\ historyIndex (revokeEach states s) = historyIndex s.
Proof.
  unfold revokeEach. revert s.
  induction states as [|st rest IH]; intros s; simpl; [tauto|].
  destruct (IH (revokeObjectURL (AppState.imageUrl st) s)) as [H1 H2].
  now rewrite H1, H2.
Qed.

Lemma revokeEach_minted (states : list AppState.t) (s : App) :
  minted (revokeEach states s) = minted s.
Proof.
  unfold revokeEach. revert s.
  induction states as [|st rest IH]; intros s; simpl; [reflexivity|].
  now rewrite IH.
Qed.

Lemma addImageToHistory_minted (e : AppState.t) (s : App) :
  minted (addImageToHistory e s) = minted s.
Proof.
  unfold addImageToHistory. simpl.
  destruct (historyIndex s <? historyLength s - 1); [apply revokeEach_minted|reflexivity].
Qed.

(** What [addImageToHistory] leaves in the store, for any pointer. *)
Lemma addImageToHistory_history (e : AppState.t) (s : App) :
  history (addImageToHistory e s)
  = (JS.slice (history s) 0 (historyIndex s + 1) ++ [e])%list
  /\ historyIndex (addImageToHistory e s)
     = Z.of_nat (List.length (JS.slice (history s) 0 (historyIndex s + 1) ++ [e])%list) - 1.
Proof. unfold addImageToHistory, JS.push. split; reflexivity. Qed.

Lemma addImageToHistory_revoked (e : AppState.t) (s : App) :
  -1 <= historyIndex s <= historyLength s - 1 ->
  revoked (addImageToHistory e s)
  = (revoked s
     ++ map AppState.imageUrl (skipn (Z.to_nat (historyIndex s + 1)) (history s)))%list.
Proof.
  intros H. unfold historyLength in H.
  unfold addImageToHistory. cbn [revoked setMaskImage setCompletedCrop setCrop
    setHistoryIndex setHistory].
  unfold historyLength.
  destruct (historyIndex s <? Z.of_nat (List.length (history s)) - 1) eqn:Hlt.
  - rewrite revokeEach_revoked, sliceFrom_skipn by lia. reflexivity.
  - apply Z.ltb_ge in Hlt.
    rewrite skipn_all2 by lia. simpl. now rewrite app_nil_r.
Qed.

(** ** Claims about the history store *)

(** C1. For every history state whose pointer is in range and every new
    entry, [addImageToHistory] keeps the entries up to the pointer, discards
    exactly the entries strictly after it, revokes the object URL of each
    discarded entry (in order, and nothing else), appends the new entry and
    sets the pointer to the new last index. *)
Theorem addImageToHistory_discards_and_appends (e : AppState.t) (s : App)
  (Hrange : -1 <= historyIndex s <= historyLength s - 1) :
  let kept := firstn (Z.to_nat (historyIndex s + 1)) (history s) in
  let discarded := skipn (Z.to_nat (historyIndex s + 1)) (history s) in
  let s' := addImageToHistory e s in
  history s = (kept ++ discarded)%list
  /\ history s' = (kept ++ [e])%list
  /\ revoked s' = (revoked s ++ map AppState.imageUrl discarded)%list
  /\ historyIndex s' = historyLength s' - 1
  /\ historyIndex s' = historyIndex s + 1
  /\ currentState s' = Some e.
Proof.
  intros kept discarded s'. subst kept discarded s'.
  assert (Hlen : 0 <= historyIndex s + 1 <= Z.of_nat (List.length (history s)))
    by (unfold historyLength in Hrange; lia).
  destruct (addImageToHistory_history e s) as [Hh Hi].
  rewrite slice_prefix_firstn in Hh, Hi by exact Hlen.
  assert (Hk : List.length (firstn (Z.to_nat (historyIndex s + 1)) (history s))
               = Z.to_nat (historyIndex s + 1))
    by (apply firstn_length_le; lia).
  split; [|split; [|split; [|split; [|split]]]].
  - symmetry. apply firstn_skipn.
  - exact Hh.
  - now apply addImageToHistory_revoked.
  - unfold historyLength. rewrite Hi, Hh. reflexivity.
  - rewrite Hi, length_app, Hk. simpl. lia.
  - unfold currentState, JS.index. rewrite Hi, Hh, length_app, Hk. simpl.
    destruct (Z.of_nat (Z.to_nat (historyIndex s + 1) + 1) - 1 <? 0) eqn:Hneg;
      [apply Z.ltb_lt in Hneg; lia|].
    replace (Z.to_nat (Z.of_nat (Z.to_nat (historyIndex s + 1) + 1) - 1))
      with (List.length (firstn (Z.to_nat (historyIndex s + 1)) (history s)) + 0)%nat
      by (rewrite Hk; lia).
    rewrite nth_error_app2 by lia.
    replace (_ + 0 - _)%nat with 0%nat by lia. reflexivity.
Qed.

Lemma C1_witness :
  history (addImageToHistory entry3 undoneTwice) = [entry0; entry3]
  /\ revoked (addImageToHistory entry3 undoneTwice) = ["blob:1"; "blob:2"]
  /\ historyIndex (addImageToHistory entry3 undoneTwice) = 1.
Proof.
  assert (Hrange : -1 <= historyIndex undoneTwice <= historyLength undoneTwice - 1)
    by (vm_compute; split; discriminate).
  destruct (addImageToHistory_discards_and_appends entry3 undoneTwice Hrange)
    as (_ & Hh & Hr & _ & Hi & _).
  split; [exact Hh | split; [exact Hr | exact Hi]].
Defined.

(** With the pointer in range, the push keeps the first [historyIndex + 1]
    entries and moves the pointer one past the old one. *)
Lemma addImageToHistory_kept (e : AppState.t) (s : App) :
  -1 <= historyIndex s <= historyLength s - 1 ->
  history (addImageToHistory e s)
  = (firstn (Z.to_nat (historyIndex s + 1)) (history s) ++ [e])%list
  /\ historyIndex (addImageToHistory e s) = historyIndex s + 1.
Proof.
  intros H. unfold historyLength in H.
  destruct (addImageToHistory_history e s) as [Hh Hi].
  rewrite slice_prefix_firstn in Hh, Hi by lia.
  split; [exact Hh|].
  rewrite Hi, length_app, firstn_length_le by lia. simpl. lia.
Qed.

Lemma index_app_last {A : Type} (l : list A) (x : A) :
  JS.index (l ++ [x]) (Z.of_nat (List.length l)) = Some x.
Proof.
  unfold JS.index.
  destruct (Z.of_nat (List.length l) <? 0) eqn:Hneg; [apply Z.ltb_lt in Hneg; lia|].
  rewrite Nat2Z.id, nth_error_app2 by lia.
  now rewrite Nat.sub_diag.
Qed.

Lemma index_app_firstn {A : Type} (l : list A) (x : A) (i : Z) :
  0 <= i < Z.of_nat (List.length l) ->
  JS.index (firstn (Z.to_nat (i + 1)) l ++ [x]) i = JS.index l i.
Proof.
  intros Hi. unfold JS.index.
  destruct (i <? 0) eqn:Hneg; [apply Z.ltb_lt in Hneg; lia|].
  rewrite nth_error_app1 by (rewrite firstn_length_le; lia).
  rewrite nth_error_firstn.
  destruct (Z.to_nat i <? Z.to_nat (i + 1))%nat eqn:Hlt; [reflexivity|].
  apply Nat.ltb_ge in Hlt. lia.
Qed.

Lemma handleUndo_pointerInRange (s : App) :
  pointerInRange s -> pointerInRange (handleUndo s).
Proof.
  unfold pointerInRange, handleUndo, canUndo, historyLength. intros [Hr He].
  destruct (0 <? historyIndex s) eqn:Hpos; [|tauto].
  apply Z.ltb_lt in Hpos. simpl. split; [lia|]. intros. lia.
Qed.

Lemma handleRedo_pointerInRange (s : App) :
  pointerInRange s -> pointerInRange (handleRedo s).
Proof.
  unfold pointerInRange, handleRedo, canRedo, historyLength. intros [Hr He].
  destruct (historyIndex s <? Z.of_nat (List.length (history s)) - 1) eqn:Hlt; [|tauto].
  apply Z.ltb_lt in Hlt. simpl. split; [lia|]. intros. lia.
Qed.

Lemma addImageToHistory_pointerInRange (e : AppState.t) (s : App) :
  pointerInRange s -> pointerInRange (addImageToHistory e s).
Proof.
  intros [Hr _]. destruct (addImageToHistory_kept e s Hr) as [Hh Hi].
  unfold pointerInRange, historyLength. rewrite Hh, Hi, length_app.
  unfold historyLength in Hr.
  rewrite firstn_length_le by lia. simpl. split; [lia|]. intros. lia.
Qed.

Lemma step_pointerInRange (op : HistoryOp) (s : App) :
  pointerInRange s -> pointerInRange (step op s).
Proof.
  destruct op; simpl.
  - apply addImageToHistory_pointerInRange.
  - apply handleUndo_pointerInRange.
  - apply handleRedo_pointerInRange.
Qed.

Lemma run_pointerInRange (ops : list HistoryOp) :
  forall s, pointerInRange s -> pointerInRange (run ops s).
Proof.
  unfold run. induction ops as [|op rest IH]; intros s Hs; simpl.
  - exact Hs.
  - apply IH. now apply step_pointerInRange.
Qed.

Lemma initialApp_pointerInRange : pointerInRange initialApp.
Proof. unfold pointerInRange. simpl. split; [vm_compute; split; discriminate | reflexivity]. Qed.

(** C2. After every sequence of push, undo and redo operations applied to
    the empty store the pointer is within [-1, length - 1] and is [-1]
    exactly when the store is empty; undo with the pointer at 0 and redo
    with the pointer at the last index return the state unchanged. *)
Theorem pointer_in_range_after_any_sequence (ops : list HistoryOp) :
  let s := run ops initialApp in
  -1 <= historyIndex s <= historyLength s - 1
  /\ (historyIndex s = -1 <-> history s = [])
  /\ (historyIndex s = 0 -> handleUndo s = s)
  /\ (historyIndex s = historyLength s - 1 -> handleRedo s = s).
Proof.
  intros s.
  destruct (run_pointerInRange ops initialApp initialApp_pointerInRange) as [Hr He].
  fold s in Hr, He.
  split; [exact Hr|]. split; [|split].
  - split; [exact He|]. intros Hnil. unfold historyLength in Hr.
    rewrite Hnil in Hr. simpl in Hr. lia.
  - intros H0. unfold handleUndo, canUndo. now rewrite H0.
  - intros Hlast. unfold handleRedo, canRedo. rewrite Hlast.
    now rewrite Z.ltb_irrefl.
Qed.

(** C10. When [layerId] is the id of no layer of the current entry,
    [handleDeleteLayer] still pushes an entry: it is equal to the current
    one (same base image, the same layers in the same order), it sits right
    after the current one, which stays in place, and the pointer advances by
    one. *)
Theorem handleDeleteLayer_unknown_id_duplicates (layerId : string) (s : App)
  (cur : AppState.t)
  (Hcur : currentState s = Some cur)
  (Hfresh : forall l, In l (AppState.layers cur) -> Layer.id l <> layerId) :
  let s' := handleDeleteLayer layerId s in
  history s' = (firstn (Z.to_nat (historyIndex s + 1)) (history s) ++ [cur])%list
  /\ historyIndex s' = historyIndex s + 1
  /\ currentState s' = Some cur
  /\ JS.index (history s') (historyIndex s) = Some cur
  /\ option_map AppState.layers (currentState s') = Some (AppState.layers cur).
Proof.
  intros s'.
  assert (Hidx : 0 <= historyIndex s < Z.of_nat (List.length (history s)))
    by (apply index_nth_error with (x := cur); exact Hcur).
  assert (Hrange : -1 <= historyIndex s <= historyLength s - 1)
    by (unfold historyLength; lia).
  assert (Hsame : filter (fun l => negb (idIs layerId l)) (currentLayers s)
                  = AppState.layers cur).
  { unfold currentLayers. rewrite Hcur.
    apply forallb_filter_id. apply forallb_forall. intros l Hl.
    unfold idIs. apply negb_true_iff. apply String.eqb_neq. now apply Hfresh. }
  assert (Hdup : AppState.mk (AppState.imageFile cur) (AppState.imageUrl cur)
                   (filter (fun l => negb (idIs layerId l)) (currentLayers s)) = cur)
    by (rewrite Hsame; destruct cur; reflexivity).
  destruct (addImageToHistory_kept cur s Hrange) as [Hh Hi].
  assert (Hhist : history s' = history (addImageToHistory cur s)
                  /\ historyIndex s' = historyIndex (addImageToHistory cur s)).
  { subst s'. unfold handleDeleteLayer. rewrite Hcur, Hdup.
    destruct (activeLayerId s) as [a|]; [|tauto].
    destruct (String.eqb a layerId); split; reflexivity. }
  destruct Hhist as [Hh' Hi'].
  assert (Hnew : currentState s' = Some cur).
  { unfold currentState. rewrite Hh', Hi', Hh, Hi.
    replace (historyIndex s + 1)
      with (Z.of_nat (List.length (firstn (Z.to_nat (historyIndex s + 1)) (history s))))
      at 2 by (rewrite firstn_length_le; lia).
    apply index_app_last. }
  split; [now rewrite Hh'|]. split; [now rewrite Hi'|]. split; [exact Hnew|].
  split.
  - rewrite Hh', Hh, index_app_firstn by exact Hidx. exact Hcur.
  - now rewrite Hnew.
Qed.

Lemma C10_witness :
  history (handleDeleteLayer "no-such-layer" (handleRedo undoneTwice)) = [entry0; entry1; entry1]
  /\ historyIndex (handleDeleteLayer "no-such-layer" (handleRedo undoneTwice)) = 2.
Proof.
  assert (Hcur : currentState (handleRedo undoneTwice) = Some entry1) by reflexivity.
  assert (Hfresh : forall l, In l (AppState.layers entry1) -> Layer.id l <> "no-such-layer").
  { simpl. intros l [<-|[]]. discriminate. }
  destruct (handleDeleteLayer_unknown_id_duplicates "no-such-layer"
              (handleRedo undoneTwice) entry1 Hcur Hfresh) as (Hh & Hi & _).
  split; [exact Hh | exact Hi].
Defined.

(** ** Failed operations *)

Lemma storeUntouched_refl (s : App) : storeUntouched s s.
Proof. unfold storeUntouched. tauto. Qed.






(** ** Flattening *)

Lemma drawLayers_undecodable (w : World) (cw ch : float) (ls : list Layer.t) :
  (exists l, In l ls /\ loads w (Layer.imageUrl l) = false) ->
  forall canvas, drawLayers w cw ch ls canvas = inl ErrorEvent.
Proof.
  induction ls as [|layer rest IH]; intros [l [Hin Hbad]] canvas.
  - contradiction.
  - simpl. destruct (loads w (Layer.imageUrl layer)) eqn:Hl; [|reflexivity].
    apply IH. exists l. split; [|exact Hbad].
    destruct Hin as [->|Hin]; [congruence|exact Hin].
Qed.

(** With a base image that loads and a 2D context, one layer that does not
    decode rejects the whole flatten: no file is produced. *)
Lemma flattenImage_undecodable_layer (w : World) (s : App) (cur : AppState.t) :
  currentState s = Some cur ->
  JS.truthy (AppState.imageUrl cur) = true ->
  loads w (AppState.imageUrl cur) = true ->
  context2d w = true ->
  (exists l, In l (AppState.layers cur) /\ loads w (Layer.imageUrl l) = false) ->
  flattenImage w s = Rejected ErrorEvent.
Proof.
  intros Hcur Hurl Hbase Hctx Hbad. unfold flattenImage, currentImageUrl, currentLayers.
  rewrite Hcur. simpl. rewrite Hurl, Hbase, Hctx. simpl.
  destruct (AppState.layers cur) as [|l0 ls] eqn:Hls.
  - destruct Hbad as [l [[] _]].
  - simpl Datatypes.length. simpl Nat.eqb. cbv iota.
    destruct (naturalSize w (AppState.imageUrl cur)) as [nw nh].
    now rewrite drawLayers_undecodable.
Qed.

(** A rejected flatten is caught by [handleApplyGlobalEdit]: it returns,
    reports the error, clears the busy message and leaves the store alone. *)
Lemma handleApplyGlobalEdit_recovers (w : World)
  (ef : option File -> string -> Promise string) (p message : string) (s : App)
  (cur : AppState.t) (e : Thrown) :
  currentState s = Some cur ->
  flattenImage w s = Rejected e ->
  handleApplyGlobalEdit w ef p message s
  = (s |> setLoadingMessage (Some message)
       |> setError None
       |> setError (Some ("Failed to apply the edit. " ++ errorMessage e))
       |> setLoadingMessage None,
     Returned).
Proof.
  intros Hcur Hflat. unfold handleApplyGlobalEdit, currentImageFile.
  now rewrite Hcur, Hflat.
Qed.

(** The same rejection in [handleApplyCrop] is caught by nobody: the
    handler ends with the rejection unhandled and the busy message set. *)
Lemma handleApplyCrop_rejection_escapes (w : World) (s : App)
  (c : PixelCrop.t) (img : ImgElement) (e : Thrown) :
  completedCrop s = Some c ->
  imgRef w = Some img ->
  flattenImage w s = Rejected e ->
  handleApplyCrop w s = (s |> setLoadingMessage (Some "Applying crop..."), Uncaught e).
Proof.
  intros Hc Himg Hflat. unfold handleApplyCrop. now rewrite Hc, Himg, Hflat.
Qed.

(** C4. On the entry whose second layer does not decode, [flattenImage]
    rejects and returns no composite, and [handleApplyGlobalEdit] recovers
    from it; [handleApplyCrop] leaves the history as it was but does not
    recover: the rejection is unhandled, no error is reported and the busy
    message stays set. *)
Theorem handleApplyCrop_decode_error_unrecovered :
  flattenImage sampleWorld cropReady = Rejected ErrorEvent
  /\ handleApplyGlobalEdit sampleWorld filterService "vivid" "Applying creative filter..." cropReady
     = (cropReady |> setError (Some "Failed to apply the edit. An unknown error occurred."),
        Returned)
  /\ handleApplyCrop sampleWorld cropReady
     = (cropReady |> setLoadingMessage (Some "Applying crop..."), Uncaught ErrorEvent)
  /\ isLoading (fst (handleApplyCrop sampleWorld cropReady)) = true
  /\ error (fst (handleApplyCrop sampleWorld cropReady)) = None
  /\ history (fst (handleApplyCrop sampleWorld cropReady)) = history cropReady.
Proof.
  assert (Hflat : flattenImage sampleWorld cropReady = Rejected ErrorEvent).
  { apply flattenImage_undecodable_layer with (cur := entry2); try reflexivity.
    exists scarf. split; [right; left; reflexivity | reflexivity]. }
  assert (Hcrop : handleApplyCrop sampleWorld cropReady
                  = (cropReady |> setLoadingMessage (Some "Applying crop..."),
                     Uncaught ErrorEvent))
    by (apply handleApplyCrop_rejection_escapes
          with (c := PixelCrop.mk 10 10 100 50) (img := mkImg 250 150);
        [reflexivity | reflexivity | exact Hflat]).
  split; [exact Hflat|]. split.
  - rewrite handleApplyGlobalEdit_recovers with (cur := entry2) (e := ErrorEvent);
      [reflexivity | reflexivity | exact Hflat].
  - split; [exact Hcrop|]. rewrite Hcrop. simpl. repeat split.
Qed.

(** ** Generating a layer *)

Lemma currentState_ext (s t : App) :
  history s = history t -> historyIndex s = historyIndex t ->
  currentState s = currentState t.
Proof. unfold currentState. now intros -> ->. Qed.


(** The state after a push made from a state with a current entry. *)
Lemma pushed_from_current (e cur : AppState.t) (s : App) :
  currentState s = Some cur ->
  let s' := addImageToHistory e s in
  currentState s' = Some e
  /\ historyIndex s' = historyIndex s + 1
  /\ 0 < historyIndex s' <= historyLength s' - 1
  /\ JS.index (history s') (historyIndex s) = Some cur.
Proof.
  intros Hcur s'.
  assert (Hidx : 0 <= historyIndex s < Z.of_nat (List.length (history s)))
    by (apply index_nth_error with (x := cur); exact Hcur).
  assert (Hrange : -1 <= historyIndex s <= historyLength s - 1)
    by (unfold historyLength; lia).
  destruct (addImageToHistory_kept e s Hrange) as [Hh Hi]. fold s' in Hh, Hi.
  assert (Hk : List.length (firstn (Z.to_nat (historyIndex s + 1)) (history s))
               = Z.to_nat (historyIndex s + 1))
    by (apply firstn_length_le; lia).
  split; [|split; [exact Hi|split]].
  - unfold currentState. rewrite Hh, Hi.
    replace (historyIndex s + 1)
      with (Z.of_nat (List.length (firstn (Z.to_nat (historyIndex s + 1)) (history s))))
      at 2 by (rewrite Hk; lia).
    apply index_app_last.
  - unfold historyLength. rewrite Hi, Hh, length_app, Hk. simpl. lia.
  - rewrite Hh, index_app_firstn by exact Hidx. exact Hcur.
Qed.





(** ** Reset and new upload *)

(** C6, as the code has it: [handleUploadNew] empties the store and puts
    the pointer at [-1]; [handleReset] keeps every entry (and revokes
    nothing), puts the pointer on the first entry of a store that has one
    and does nothing on the empty store. *)
Theorem handleUploadNew_empties_handleReset_rewinds (s : App) :
  history (handleUploadNew s) = []
  /\ historyIndex (handleUploadNew s) = -1
  /\ history (handleReset s) = history s
  /\ revoked (handleReset s) = revoked s
  /\ (history s <> [] -> historyIndex (handleReset s) = 0)
  /\ (history s = [] -> handleReset s = s).
Proof.
  split; [reflexivity|]. split; [reflexivity|].
  unfold handleReset, historyLength.
  destruct (history s) as [|e0 rest] eqn:Hh.
  - simpl. rewrite Hh. repeat split; congruence.
  - replace (0 <? Z.of_nat (List.length (e0 :: rest))) with true
      by (symmetry; apply Z.ltb_lt; simpl; lia).
    simpl. rewrite Hh. repeat split; congruence.
Qed.

(** C6 fails as stated: with three live entries, [handleReset] leaves all
    three in the store, and neither it nor [handleUploadNew] revokes the
    object URL of any entry. *)
Lemma reset_neither_empties_nor_releases :
  history (handleReset threeEntries) = [entry0; entry1; entry2]
  /\ history (handleReset threeEntries) <> []
  /\ revoked (handleReset threeEntries) = []
  /\ history (handleUploadNew threeEntries) = []
  /\ ~ In (AppState.imageUrl entry0) (revoked (handleUploadNew threeEntries)).
Proof.
  split; [reflexivity|]. split; [discriminate|]. split; [reflexivity|].
  split; [reflexivity|]. simpl. tauto.
Qed.

(** ** Ownership of base images *)





(** The discarded entry of the first generate shared its base image with
    the first entry: the push revokes [blob:0] although the entry under the
    pointer and the first entry still reference it. *)
Example push_revokes_a_shared_base_image :
  revoked regeneratedAfterUndo = ["blob:0"]
  /\ currentImageUrl regeneratedAfterUndo = Some "blob:0"
  /\ originalImageUrl regeneratedAfterUndo = Some "blob:0".
Proof. vm_compute. repeat split. Qed.


(** ** Display to native coordinates *)

Example toNative_half_scale : toNative 50 500 250 = 100%float.
Proof. vm_compute. reflexivity. Qed.

Lemma zero_is_zero (y : float) :
  (y =? 0)%float = true -> exists sy, Prim2SF y = S754_zero sy.
Proof.
  rewrite eqb_spec. change (Prim2SF 0) with (S754_zero false).
  destruct (Prim2SF y) as [sy|sy| |sy m e]; unfold SFeqb; simpl.
  - intros _. now exists sy.
  - destruct sy; discriminate.
  - discriminate.
  - destruct sy; discriminate.
Qed.

Lemma div_by_zero_not_finite (x y : float) :
  (y =? 0)%float = true -> JS.isFinite (x / y) = false.
Proof.
  intros Hy. destruct (zero_is_zero y Hy) as [sy Hsy].
  unfold JS.isFinite. rewrite div_spec, Hsy. unfold SF64div, SFdiv.
  destruct (Prim2SF x); reflexivity.
Qed.

Lemma mul_not_finite (a b : float) :
  JS.isFinite b = false -> JS.isFinite (a * b) = false.
Proof.
  unfold JS.isFinite. rewrite mul_spec. unfold SF64mul, SFmul.
  destruct (Prim2SF b); try discriminate; intros _; destruct (Prim2SF a); reflexivity.
Qed.

Lemma Math_round_not_finite (x : float) :
  JS.isFinite x = false -> JS.Math_round x = x.
Proof.
  unfold JS.isFinite, JS.Math_round.
  destruct (Prim2SF x); try discriminate; reflexivity.
Qed.

Lemma toNative_zero_client (offset natural client : float) :
  (client =? 0)%float = true -> JS.isFinite (toNative offset natural client) = false.
Proof.
  intros Hc. unfold toNative.
  assert (Hp : JS.isFinite (offset * (natural / client)) = false)
    by (apply mul_not_finite, div_by_zero_not_finite, Hc).
  now rewrite Math_round_not_finite.
Qed.




(** C9, as the code has it.  In the edit tab with the point tool the
    handler reports no error whatever the measurements are and always stores
    a hotspot; when the client width (height) of the image is zero, the x
    (y) coordinate of that hotspot is an infinity or NaN. *)
Theorem zero_display_size_stores_nonfinite_hotspot (e : ImgClick) (s : App)
  (Htab : activeTab s = TabEdit) (Htool : activeTool s = Point) :
  error (handleBaseImageClick e s) = error s
  /\ history (handleBaseImageClick e s) = history s
  /\ exists p, editHotspot (handleBaseImageClick e s) = Some p
       /\ ((clientWidth e =? 0)%float = true -> JS.isFinite (Hotspot.x p) = false)
       /\ ((clientHeight e =? 0)%float = true -> JS.isFinite (Hotspot.y p) = false).
Proof.
  unfold handleBaseImageClick. rewrite Htab, Htool. simpl.
  split; [reflexivity|]. split; [reflexivity|].
  eexists. split; [reflexivity|]. simpl. split; intros Hz.
  - exact (toNative_zero_client _ _ _ Hz).
  - exact (toNative_zero_client _ _ _ Hz).
Qed.

Lemma C9_witness :
  error clickedCollapsed = None
  /\ exists p, editHotspot clickedCollapsed = Some p
       /\ JS.isFinite (Hotspot.x p) = false /\ JS.isFinite (Hotspot.y p) = false.
Proof.
  destruct (zero_display_size_stores_nonfinite_hotspot
              (mkImgClick 60 35 10 10 500 300 0 0) uploaded eq_refl eq_refl)
    as (Herr & _ & p & Hp & Hx & Hy).
  split; [exact Herr|]. exists p. split; [exact Hp|].
  split; [apply Hx | apply Hy]; reflexivity.
Defined.

(** C9 fails as stated: a click on an image displayed 0 by 0 signals
    nothing and stores the hotspot (Infinity, Infinity). *)
Lemma zero_display_size_signals_no_error :
  editHotspot clickedCollapsed = Some (Hotspot.mk infinity infinity)
  /\ error clickedCollapsed = None.
Proof. vm_compute. repeat split. Qed.

(** ** Every handler keeps the pointer in range *)

Lemma pointerInRange_ext (s s' : App) :
  history s' = history s -> historyIndex s' = historyIndex s ->
  pointerInRange s -> pointerInRange s'.
Proof. unfold pointerInRange, historyLength. now intros -> ->. Qed.

Lemma pointerInRange_setActiveLayerId (v : option string) (s : App) :
  pointerInRange s -> pointerInRange (setActiveLayerId v s).
Proof. exact (pointerInRange_ext s (setActiveLayerId v s) eq_refl eq_refl). Qed.

Lemma pointerInRange_setPrompt (v : string) (s : App) :
  pointerInRange s -> pointerInRange (setPrompt v s).
Proof. exact (pointerInRange_ext s (setPrompt v s) eq_refl eq_refl). Qed.

Lemma pointerInRange_setLoadingMessage (v : option string) (s : App) :
  pointerInRange s -> pointerInRange (setLoadingMessage v s).
Proof. exact (pointerInRange_ext s (setLoadingMessage v s) eq_refl eq_refl). Qed.

Lemma pointerInRange_setError (v : option string) (s : App) :
  pointerInRange s -> pointerInRange (setError v s).
Proof. exact (pointerInRange_ext s (setError v s) eq_refl eq_refl). Qed.

Lemma pointerInRange_setActiveTab (v : Tab) (s : App) :
  pointerInRange s -> pointerInRange (setActiveTab v s).
Proof. exact (pointerInRange_ext s (setActiveTab v s) eq_refl eq_refl). Qed.

Lemma pointerInRange_setActiveTool (v : EditTool) (s : App) :
  pointerInRange s -> pointerInRange (setActiveTool v s).
Proof. exact (pointerInRange_ext s (setActiveTool v s) eq_refl eq_refl). Qed.

Lemma pointerInRange_setMaskImage (v : option string) (s : App) :
  pointerInRange s -> pointerInRange (setMaskImage v s).
Proof. exact (pointerInRange_ext s (setMaskImage v s) eq_refl eq_refl). Qed.

Lemma pointerInRange_setEditHotspot (v : option Hotspot.t) (s : App) :
  pointerInRange s -> pointerInRange (setEditHotspot v s).
Proof. exact (pointerInRange_ext s (setEditHotspot v s) eq_refl eq_refl). Qed.

Lemma pointerInRange_setDisplayHotspot (v : option Hotspot.t) (s : App) :
  pointerInRange s -> pointerInRange (setDisplayHotspot v s).
Proof. exact (pointerInRange_ext s (setDisplayHotspot v s) eq_refl eq_refl). Qed.

Lemma pointerInRange_setCrop (v : option PixelCrop.t) (s : App) :
  pointerInRange s -> pointerInRange (setCrop v s).
Proof. exact (pointerInRange_ext s (setCrop v s) eq_refl eq_refl). Qed.

Lemma pointerInRange_setCompletedCrop (v : option PixelCrop.t) (s : App) :
  pointerInRange s -> pointerInRange (setCompletedCrop v s).
Proof. exact (pointerInRange_ext s (setCompletedCrop v s) eq_refl eq_refl). Qed.

Lemma pointerInRange_revokeObjectURL (v : string) (s : App) :
  pointerInRange s -> pointerInRange (revokeObjectURL v s).
Proof. exact (pointerInRange_ext s (revokeObjectURL v s) eq_refl eq_refl). Qed.

Lemma pointerInRange_mintOne (s : App) :
  pointerInRange s -> pointerInRange (mintOne s).
Proof. exact (pointerInRange_ext s (mintOne s) eq_refl eq_refl). Qed.

Create HintDb range.
#[local] Hint Resolve pointerInRange_setActiveLayerId pointerInRange_setPrompt pointerInRange_setLoadingMessage pointerInRange_setError pointerInRange_setActiveTab pointerInRange_setActiveTool pointerInRange_setMaskImage pointerInRange_setEditHotspot pointerInRange_setDisplayHotspot pointerInRange_setCrop pointerInRange_setCompletedCrop pointerInRange_revokeObjectURL pointerInRange_mintOne
  addImageToHistory_pointerInRange : range.

(** One goal for every path through a handler. *)
Ltac split_handler :=
  repeat match goal with
    | |- pointerInRange (fst (match ?x with _ => _ end)) => destruct x eqn:?
    | |- pointerInRange (match ?x with _ => _ end) => destruct x eqn:?
    end.

(** On each path the state is a chain of setters and at most one push. *)
Ltac keep_range := cbn [fst]; auto 20 with range.

Lemma sync_handlers_pointerInRange (w : World) (s : App) :
  pointerInRange s ->
  (forall file, pointerInRange (handleImageUpload w file s))
  /\ pointerInRange (handleReset s)
  /\ pointerInRange (handleUploadNew s)
  /\ (forall layerId, pointerInRange (handleSelectLayer layerId s))
  /\ (forall layerId, pointerInRange (handleDeleteLayer layerId s))
  /\ (forall e, pointerInRange (handleBaseImageClick e s)).
Proof.
  intros H. split; [|split; [|split; [|split; [|split]]]].
  - intros file. unfold handleImageUpload, createObjectURL, pointerInRange, historyLength.
    simpl. split; [lia | discriminate].
  - unfold handleReset. destruct (0 <? historyLength s) eqn:Hpos; [|exact H].
    apply Z.ltb_lt in Hpos. unfold pointerInRange, historyLength in *. simpl.
    split; [lia | discriminate].
  - unfold handleUploadNew, pointerInRange, historyLength. simpl. split; [lia | reflexivity].
  - intros layerId. unfold handleSelectLayer. split_handler; keep_range.
  - intros layerId. unfold handleDeleteLayer. split_handler; keep_range.
  - intros e. unfold handleBaseImageClick. split_handler; keep_range.
Qed.

Lemma async_handlers_pointerInRange (w : World) (s : App) :
  pointerInRange s ->
  (forall gen, pointerInRange (fst (handleGenerate w gen s)))
  /\ (forall rm, pointerInRange (fst (handleRemove w rm s)))
  /\ (forall ef p message, pointerInRange (fst (handleApplyGlobalEdit w ef p message s)))
  /\ pointerInRange (fst (handleApplyCrop w s)).
Proof.
  intros H. split; [|split; [|split]].
  - intros gen. unfold handleGenerate. split_handler; keep_range.
  - intros rm. unfold handleRemove, editFlattened, createObjectURL.
    split_handler; keep_range.
  - intros ef p message. unfold handleApplyGlobalEdit, editFlattened, createObjectURL.
    split_handler; keep_range.
  - unfold handleApplyCrop, createObjectURL. split_handler; keep_range.
Qed.

(** The selected layer is edited again: one layer, the same id, the new
    raster and prompt; undo then redo shows it again. *)
Example regenerate_keeps_layer_id :
  activeLayerId generated = Some "1700000000000"
  /\ currentLayers regenerated
     = [Layer.mk "1700000000000" "data:image/png;base64,REDHAT" "make the hat red"]
  /\ historyIndex regenerated = 2
  /\ currentLayers (handleUndo regenerated)
     = [Layer.mk "1700000000000" "data:image/png;base64,HAT" "add hat"]
  /\ currentLayers (handleRedo (handleUndo regenerated)) = currentLayers regenerated.
Proof. vm_compute. repeat split. Qed.

(** ** Flattening: pass-through and composite order *)

(** X1. With no layers under the pointer (in particular with no current
    entry) [flattenImage] resolves at once with the current file, or with
    the [null] there is when the store is empty: no image is decoded and no
    canvas is created, whatever the browser would answer. *)
Theorem flattenImage_without_layers (w : World) (s : App)
  (Hnone : currentLayers s = []) :
  flattenImage w s = Resolved (currentImageFile s).
Proof.
  unfold flattenImage. rewrite Hnone.
  destruct (currentImageUrl s) as [url|]; [|reflexivity].
  destruct (currentState s) as [cur|]; [|reflexivity].
  simpl Datatypes.length. simpl Nat.eqb. now rewrite orb_true_r.
Qed.

Lemma flattenImage_without_layers_witness :
  flattenImage sampleWorld uploaded = Resolved (Some photo).
Proof. exact (flattenImage_without_layers sampleWorld uploaded eq_refl). Defined.

Lemma drawLayers_all_decodable (w : World) (cw ch : float) (ls : list Layer.t) :
  forallb (fun l => loads w (Layer.imageUrl l)) ls = true ->
  forall canvas,
    drawLayers w cw ch ls canvas
    = inr (canvas ++ map (fun l => DrawImage5 (Layer.imageUrl l) 0 0 cw ch) ls)%list.
Proof.
  induction ls as [|layer rest IH]; intros Hall canvas; simpl.
  - now rewrite app_nil_r.
  - simpl in Hall. apply andb_true_iff in Hall. destruct Hall as [Hl Hrest].
    rewrite Hl, (IH Hrest). now rewrite <- app_assoc.
Qed.

Lemma drawLayers_some_undecodable (w : World) (cw ch : float) (ls : list Layer.t) :
  forallb (fun l => loads w (Layer.imageUrl l)) ls = false ->
  forall canvas, drawLayers w cw ch ls canvas = inl ErrorEvent.
Proof.
  induction ls as [|layer rest IH]; intros Hall canvas; simpl in *.
  - discriminate.
  - destruct (loads w (Layer.imageUrl layer)); [|reflexivity].
    apply IH. exact Hall.
Qed.

(** X2. For a current entry with at least one layer, a base image that
    loads and a 2D context: if every layer decodes, the canvas takes the
    size of the base image, the base image is drawn first and then every
    layer in list order, stretched to the canvas, and the result is the PNG
    of that canvas decoded by [dataURLtoFile]; if some layer does not
    decode, the promise is rejected with the error event and nothing is
    produced. *)
Theorem flattenImage_draws_layers_in_order (w : World) (s : App) (cur : AppState.t)
  (Hcur : currentState s = Some cur)
  (Hurl : JS.truthy (AppState.imageUrl cur) = true)
  (Hlayers : AppState.layers cur <> [])
  (Hbase : loads w (AppState.imageUrl cur) = true)
  (Hctx : context2d w = true) :
  let url := AppState.imageUrl cur in
  let size := naturalSize w url in
  let canvas :=
    ([SetWidth (fst size); SetHeight (snd size); DrawImage3 url 0 0]
     ++ map (fun l => DrawImage5 (Layer.imageUrl l) 0 0 (fst size) (snd size))
          (AppState.layers cur))%list in
  flattenImage w s
  = if forallb (fun l => loads w (Layer.imageUrl l)) (AppState.layers cur)
    then match dataURLtoFile w (toDataURL w canvas)
                 ("flattened-" ++ JS.toString (now w) ++ ".png") with
         | inl e => Rejected e
         | inr f => Resolved (Some f)
         end
    else Rejected ErrorEvent.
Proof.
  intros url size canvas. subst url size canvas.
  unfold flattenImage, currentImageUrl, currentLayers. rewrite Hcur.
  simpl option_map. cbv iota. rewrite Hurl, Hbase, Hctx.
  destruct (AppState.layers cur) as [|l0 ls] eqn:Hls; [congruence|].
  simpl Datatypes.length. simpl Nat.eqb. simpl negb. simpl orb. cbv iota.
  destruct (naturalSize w (AppState.imageUrl cur)) as [nw nh]. simpl fst. simpl snd.
  destruct (forallb (fun l => loads w (Layer.imageUrl l)) (l0 :: ls)) eqn:Hall.
  - now rewrite (drawLayers_all_decodable w nw nh (l0 :: ls) Hall).
  - now rewrite (drawLayers_some_undecodable w nw nh (l0 :: ls) Hall).
Qed.

Lemma flattenImage_draws_layers_in_order_witness :
  flattenImage sampleWorld generated
  = Resolved (Some (mkFile "AAAA" "flattened-1700000000000.png" "image/png")).
Proof.
  exact (flattenImage_draws_layers_in_order sampleWorld generated
           (AppState.mk photo "blob:0"
              [Layer.mk "1700000000000" "data:image/png;base64,HAT" "add hat"])
           eq_refl eq_refl ltac:(discriminate) eq_refl eq_refl).
Defined.

(** ** Undo, redo and the current entry *)

(** X3. With the pointer in range, a store has no current entry exactly
    when it is empty: a non-empty history always shows an image. *)
Theorem current_entry_exists (s : App) (Hrange : pointerInRange s) :
  currentState s = None <-> history s = [].
Proof.
  destruct Hrange as [Hr He]. unfold historyLength in Hr.
  unfold currentState, JS.index. split.
  - destruct (historyIndex s <? 0) eqn:Hneg.
    + intros _. apply He. apply Z.ltb_lt in Hneg. lia.
    + apply Z.ltb_ge in Hneg. intros Hnone. apply nth_error_None in Hnone. lia.
  - intros Hnil. rewrite Hnil.
    destruct (historyIndex s <? 0); [reflexivity|]. now destruct (Z.to_nat (historyIndex s)).
Qed.

Lemma current_entry_exists_witness :
  currentState threeEntries = None <-> history threeEntries = [].
Proof.
  apply (current_entry_exists threeEntries).
  unfold pointerInRange. split; [vm_compute; split; discriminate | discriminate].
Defined.

(** X4. Undo and redo are inverse to each other on the history: when undo
    is possible, undo followed by redo shows the same entry of the same
    array, and when redo is possible so does redo followed by undo; the
    array itself is never changed and nothing is revoked.  The selection is
    not restored: active layer, mask and hotspots are cleared. *)
Theorem undo_and_redo_are_inverse (s : App) (Hrange : pointerInRange s) :
  (canUndo s = true ->
     history (handleRedo (handleUndo s)) = history s
     /\ historyIndex (handleRedo (handleUndo s)) = historyIndex s
     /\ revoked (handleRedo (handleUndo s)) = revoked s
     /\ activeLayerId (handleRedo (handleUndo s)) = None
     /\ maskImage (handleRedo (handleUndo s)) = None
     /\ editHotspot (handleRedo (handleUndo s)) = None)
  /\ (canRedo s = true ->
        history (handleUndo (handleRedo s)) = history s
        /\ historyIndex (handleUndo (handleRedo s)) = historyIndex s
        /\ revoked (handleUndo (handleRedo s)) = revoked s
        /\ activeLayerId (handleUndo (handleRedo s)) = None
        /\ maskImage (handleUndo (handleRedo s)) = None
        /\ editHotspot (handleUndo (handleRedo s)) = None).
Proof.
  destruct Hrange as [Hr He]. unfold historyLength in Hr. split.
  - intros Hu. unfold handleUndo. rewrite Hu. unfold canUndo in Hu.
    apply Z.ltb_lt in Hu. unfold handleRedo, canRedo, historyLength. simpl.
    destruct (historyIndex s - 1 <? Z.of_nat (List.length (history s)) - 1) eqn:Hlt;
      [|apply Z.ltb_ge in Hlt; lia].
    simpl. repeat split. lia.
  - intros Hd. unfold handleRedo. rewrite Hd. unfold canRedo, historyLength in Hd.
    apply Z.ltb_lt in Hd. unfold handleUndo, canUndo. simpl.
    assert (Hnonneg : 0 <= historyIndex s).
    { destruct (Z.eq_dec (historyIndex s) (-1)) as [Hm|Hm]; [|lia].
      rewrite (He Hm) in Hd. simpl in Hd. lia. }
    destruct (0 <? historyIndex s + 1) eqn:Hpos; [|apply Z.ltb_ge in Hpos; lia].
    simpl. repeat split. lia.
Qed.

Lemma undo_and_redo_are_inverse_witness :
  historyIndex (handleRedo (handleUndo threeEntries)) = 2
  /\ historyIndex (handleUndo (handleRedo undoneTwice)) = 0.
Proof.
  assert (H3 : pointerInRange threeEntries)
    by (unfold pointerInRange; split; [vm_compute; split; discriminate | discriminate]).
  assert (H0 : pointerInRange undoneTwice)
    by (unfold pointerInRange; split; [vm_compute; split; discriminate | discriminate]).
  destruct (undo_and_redo_are_inverse threeEntries H3) as [Hu _].
  destruct (undo_and_redo_are_inverse undoneTwice H0) as [_ Hd].
  destruct (Hu eq_refl) as (_ & Hi3 & _). destruct (Hd eq_refl) as (_ & Hi0 & _).
  split; [exact Hi3 | exact Hi0].
Defined.

(** ** Deleting a layer *)

Lemma revokeEach_activeLayerId (states : list AppState.t) (s : App) :
  activeLayerId (revokeEach states s) = activeLayerId s.
Proof.
  unfold revokeEach. revert s.
  induction states as [|st rest IH]; intros s; simpl; [reflexivity|].
  now rewrite IH.
Qed.

Lemma addImageToHistory_activeLayerId (e : AppState.t) (s : App) :
  activeLayerId (addImageToHistory e s) = activeLayerId s.
Proof.
  unfold addImageToHistory.
  cbn [activeLayerId setMaskImage setCompletedCrop setCrop setHistoryIndex setHistory].
  destruct (historyIndex s <? historyLength s - 1);
    [apply revokeEach_activeLayerId | reflexivity].
Qed.

Lemma handleDeleteLayer_store (layerId : string) (s : App) (cur : AppState.t) :
  currentState s = Some cur ->
  let pushed := AppState.mk (AppState.imageFile cur) (AppState.imageUrl cur)
                  (filter (fun l => negb (idIs layerId l)) (AppState.layers cur)) in
  history (handleDeleteLayer layerId s) = history (addImageToHistory pushed s)
  /\ historyIndex (handleDeleteLayer layerId s) = historyIndex (addImageToHistory pushed s)
  /\ revoked (handleDeleteLayer layerId s) = revoked (addImageToHistory pushed s).
Proof.
  intros Hcur pushed. unfold handleDeleteLayer, currentLayers. rewrite Hcur. fold pushed.
  generalize (addImageToHistory pushed s). intros t.
  destruct (activeLayerId s) as [a|]; [|repeat split].
  destruct (String.eqb a layerId); repeat split.
Qed.

(** X5. Deleting a layer of the current entry pushes an entry with the
    same base image whose layers are the current ones without those that
    carry the id, in their old order; no layer with that id is left, every
    other layer is kept, and undo shows the entry with the layer again.  The
    selection is dropped (and the tool set back to point) exactly when the
    deleted layer was the active one. *)
Theorem handleDeleteLayer_removes_the_layer (layerId : string) (s : App)
  (cur : AppState.t) (Hcur : currentState s = Some cur) :
  let s' := handleDeleteLayer layerId s in
  let kept := filter (fun l => negb (String.eqb (Layer.id l) layerId)) (AppState.layers cur) in
  currentState s'
  = Some (AppState.mk (AppState.imageFile cur) (AppState.imageUrl cur) kept)
  /\ (forall l, In l kept <-> In l (AppState.layers cur) /\ Layer.id l <> layerId)
  /\ historyIndex s' = historyIndex s + 1
  /\ currentState (handleUndo s') = Some cur
  /\ (activeLayerId s = Some layerId -> activeLayerId s' = None /\ activeTool s' = Point)
  /\ (activeLayerId s <> Some layerId -> activeLayerId s' = activeLayerId s).
Proof.
  intros s' kept.
  pose (pushed := AppState.mk (AppState.imageFile cur) (AppState.imageUrl cur) kept).
  destruct (handleDeleteLayer_store layerId s cur Hcur) as (Hh & Hi & _).
  change (history s' = history (addImageToHistory pushed s)) in Hh.
  change (historyIndex s' = historyIndex (addImageToHistory pushed s)) in Hi.
  destruct (pushed_from_current pushed cur s Hcur) as (Hnew & Hidx & Hpos & Hprev).
  split; [|split; [|split; [|split; [|split]]]].
  - rewrite (currentState_ext s' (addImageToHistory pushed s) Hh Hi). exact Hnew.
  - intros l. unfold kept. rewrite filter_In, negb_true_iff, String.eqb_neq. tauto.
  - now rewrite Hi.
  - unfold currentState, handleUndo, canUndo.
    destruct (0 <? historyIndex s') eqn:Hp; [|apply Z.ltb_ge in Hp; lia].
    cbn [history historyIndex setMaskImage setActiveLayerId setDisplayHotspot
         setEditHotspot setHistoryIndex].
    rewrite Hh, Hi, Hidx.
    replace (historyIndex s + 1 - 1) with (historyIndex s) by lia. exact Hprev.
  - intros Ha. subst s'. unfold handleDeleteLayer. rewrite Hcur, Ha, String.eqb_refl.
    split; reflexivity.
  - intros Ha. subst s'. unfold handleDeleteLayer. rewrite Hcur.
    destruct (activeLayerId s) as [a|] eqn:Hact.
    + destruct (String.eqb a layerId) eqn:He.
      * apply String.eqb_eq in He. congruence.
      * now rewrite addImageToHistory_activeLayerId.
    + now rewrite addImageToHistory_activeLayerId.
Qed.

Lemma handleDeleteLayer_removes_the_layer_witness :
  currentState (handleDeleteLayer "1700000000000" generated)
  = Some (AppState.mk photo "blob:0" [])
  /\ historyIndex (handleDeleteLayer "1700000000000" generated) = 2
  /\ currentState (handleUndo (handleDeleteLayer "1700000000000" generated))
     = currentState generated
  /\ activeLayerId (handleDeleteLayer "1700000000000" generated) = None.
Proof.
  assert (Hcur : currentState generated
                 = Some (AppState.mk photo "blob:0"
                           [Layer.mk "1700000000000" "data:image/png;base64,HAT" "add hat"]))
    by reflexivity.
  destruct (handleDeleteLayer_removes_the_layer "1700000000000" generated _ Hcur)
    as (Hnew & _ & Hidx & Hundo & Hact & _).
  split; [exact Hnew|]. split; [exact Hidx|]. split; [exact Hundo|].
  exact (proj1 (Hact eq_refl)).
Defined.

(** ** Errors are caught and the busy message is cleared *)

Ltac split_paths :=
  repeat match goal with
    | |- context [match ?x with _ => _ end] => destruct x eqn:?
    end.

Ltac settle_path Hidle :=
  cbn [fst snd loadingMessage setLoadingMessage setError];
  repeat split; intros; try discriminate; try reflexivity; try exact Hidle.

Lemma editFlattened_settles (w : World) (answer : Promise string)
  (prefix failure : string) (after : App -> App) (s1 : App) :
  loadingMessage s1 <> None ->
  settles (editFlattened w answer prefix failure after s1).
Proof.
  intros Hbusy. unfold settles, editFlattened, createObjectURL.
  split_paths; cbn [fst snd loadingMessage setLoadingMessage setError];
    repeat split; intros; try discriminate; try reflexivity; try exact Hbusy.
Qed.

(** X6. Started while no operation is running, [handleGenerate],
    [handleRemove] and [handleApplyGlobalEdit] never let an exception or a
    rejection escape, whatever the browser and the service do; whenever
    they return, the busy message is cleared again, and it stays set only
    while they wait on a promise that never settles. *)
Theorem guarded_handlers_settle (w : World) (s : App)
  (Hidle : loadingMessage s = None) :
  (forall gen, settles (handleGenerate w gen s))
  /\ (forall rm, settles (handleRemove w rm s))
  /\ (forall ef p message, settles (handleApplyGlobalEdit w ef p message s)).
Proof.
  split; [|split].
  - intros gen. unfold settles, handleGenerate. split_paths; settle_path Hidle.
  - intros rm. unfold handleRemove.
    split_paths;
      try (apply editFlattened_settles; cbn [loadingMessage setLoadingMessage setError];
           discriminate);
      unfold settles; settle_path Hidle.
  - intros ef p message. unfold handleApplyGlobalEdit.
    split_paths;
      try (apply editFlattened_settles; cbn [loadingMessage setLoadingMessage setError];
           discriminate);
      unfold settles; settle_path Hidle.
Qed.

Lemma guarded_handlers_settle_witness :
  settles (handleGenerate sampleWorld hatService prompted)
  /\ settles (handleApplyGlobalEdit sampleWorld filterService "vivid" "Applying..." cropReady).
Proof.
  destruct (guarded_handlers_settle sampleWorld prompted eq_refl) as (Hgen & _).
  destruct (guarded_handlers_settle sampleWorld cropReady eq_refl) as (_ & _ & Hedit).
  split; [apply Hgen | apply Hedit].
Defined.

(** ** Reading a field through a setter

    One equation for every field and every setter, used as rewrite rules so
    that a proof never has to compute through a long chain of setters. *)

Lemma history_setHistory (v : list AppState.t) (s : App) : history (setHistory v s) = v.
Proof. reflexivity. Qed.

Lemma history_setHistoryIndex (v : Z) (s : App) : history (setHistoryIndex v s) = history s.
Proof. reflexivity. Qed.

Lemma history_setActiveLayerId (v : option string) (s : App) : history (setActiveLayerId v s) = history s.
Proof. reflexivity. Qed.

Lemma history_setPrompt (v : string) (s : App) : history (setPrompt v s) = history s.
Proof. reflexivity. Qed.

Lemma history_setLoadingMessage (v : option string) (s : App) : history (setLoadingMessage v s) = history s.
Proof. reflexivity. Qed.

Lemma history_setError (v : option string) (s : App) : history (setError v s) = history s.
Proof. reflexivity. Qed.

Lemma history_setActiveTab (v : Tab) (s : App) : history (setActiveTab v s) = history s.
Proof. reflexivity. Qed.

Lemma history_setActiveTool (v : EditTool) (s : App) : history (setActiveTool v s) = history s.
Proof. reflexivity. Qed.

Lemma history_setMaskImage (v : option string) (s : App) : history (setMaskImage v s) = history s.
Proof. reflexivity. Qed.

Lemma history_setEditHotspot (v : option Hotspot.t) (s : App) : history (setEditHotspot v s) = history s.
Proof. reflexivity. Qed.

Lemma history_setDisplayHotspot (v : option Hotspot.t) (s : App) : history (setDisplayHotspot v s) = history s.
Proof. reflexivity. Qed.

Lemma history_setCrop (v : option PixelCrop.t) (s : App) : history (setCrop v s) = history s.
Proof. reflexivity. Qed.

Lemma history_setCompletedCrop (v : option PixelCrop.t) (s : App) : history (setCompletedCrop v s) = history s.
Proof. reflexivity. Qed.

Lemma history_revokeObjectURL (v : string) (s : App) : history (revokeObjectURL v s) = history s.
Proof. reflexivity. Qed.

Lemma history_mintOne (s : App) : history (mintOne s) = history s.
Proof. reflexivity. Qed.

Lemma historyIndex_setHistory (v : list AppState.t) (s : App) : historyIndex (setHistory v s) = historyIndex s.
Proof. reflexivity. Qed.

Lemma historyIndex_setHistoryIndex (v : Z) (s : App) : historyIndex (setHistoryIndex v s) = v.
Proof. reflexivity. Qed.

Lemma historyIndex_setActiveLayerId (v : option string) (s : App) : historyIndex (setActiveLayerId v s) = historyIndex s.
Proof. reflexivity. Qed.

Lemma historyIndex_setPrompt (v : string) (s : App) : historyIndex (setPrompt v s) = historyIndex s.
Proof. reflexivity. Qed.

Lemma historyIndex_setLoadingMessage (v : option string) (s : App) : historyIndex (setLoadingMessage v s) = historyIndex s.
Proof. reflexivity. Qed.

Lemma historyIndex_setError (v : option string) (s : App) : historyIndex (setError v s) = historyIndex s.
Proof. reflexivity. Qed.

Lemma historyIndex_setActiveTab (v : Tab) (s : App) : historyIndex (setActiveTab v s) = historyIndex s.
Proof. reflexivity. Qed.

Lemma historyIndex_setActiveTool (v : EditTool) (s : App) : historyIndex (setActiveTool v s) = historyIndex s.
Proof. reflexivity. Qed.

Lemma historyIndex_setMaskImage (v : option string) (s : App) : historyIndex (setMaskImage v s) = historyIndex s.
Proof. reflexivity. Qed.

Lemma historyIndex_setEditHotspot (v : option Hotspot.t) (s : App) : historyIndex (setEditHotspot v s) = historyIndex s.
Proof. reflexivity. Qed.

Lemma historyIndex_setDisplayHotspot (v : option Hotspot.t) (s : App) : historyIndex (setDisplayHotspot v s) = historyIndex s.
Proof. reflexivity. Qed.

Lemma historyIndex_setCrop (v : option PixelCrop.t) (s : App) : historyIndex (setCrop v s) = historyIndex s.
Proof. reflexivity. Qed.

Lemma historyIndex_setCompletedCrop (v : option PixelCrop.t) (s : App) : historyIndex (setCompletedCrop v s) = historyIndex s.
Proof. reflexivity. Qed.

Lemma historyIndex_revokeObjectURL (v : string) (s : App) : historyIndex (revokeObjectURL v s) = historyIndex s.
Proof. reflexivity. Qed.

Lemma historyIndex_mintOne (s : App) : historyIndex (mintOne s) = historyIndex s.
Proof. reflexivity. Qed.

Lemma activeLayerId_setHistory (v : list AppState.t) (s : App) : activeLayerId (setHistory v s) = activeLayerId s.
Proof. reflexivity. Qed.

Lemma activeLayerId_setHistoryIndex (v : Z) (s : App) : activeLayerId (setHistoryIndex v s) = activeLayerId s.
Proof. reflexivity. Qed.

Lemma activeLayerId_setActiveLayerId (v : option string) (s : App) : activeLayerId (setActiveLayerId v s) = v.
Proof. reflexivity. Qed.

Lemma activeLayerId_setPrompt (v : string) (s : App) : activeLayerId (setPrompt v s) = activeLayerId s.
Proof. reflexivity. Qed.

Lemma activeLayerId_setLoadingMessage (v : option string) (s : App) : activeLayerId (setLoadingMessage v s) = activeLayerId s.
Proof. reflexivity. Qed.

Lemma activeLayerId_setError (v : option string) (s : App) : activeLayerId (setError v s) = activeLayerId s.
Proof. reflexivity. Qed.

Lemma activeLayerId_setActiveTab (v : Tab) (s : App) : activeLayerId (setActiveTab v s) = activeLayerId s.
Proof. reflexivity. Qed.

Lemma activeLayerId_setActiveTool (v : EditTool) (s : App) : activeLayerId (setActiveTool v s) = activeLayerId s.
Proof. reflexivity. Qed.

Lemma activeLayerId_setMaskImage (v : option string) (s : App) : activeLayerId (setMaskImage v s) = activeLayerId s.
Proof. reflexivity. Qed.

Lemma activeLayerId_setEditHotspot (v : option Hotspot.t) (s : App) : activeLayerId (setEditHotspot v s) = activeLayerId s.
Proof. reflexivity. Qed.

Lemma activeLayerId_setDisplayHotspot (v : option Hotspot.t) (s : App) : activeLayerId (setDisplayHotspot v s) = activeLayerId s.
Proof. reflexivity. Qed.

Lemma activeLayerId_setCrop (v : option PixelCrop.t) (s : App) : activeLayerId (setCrop v s) = activeLayerId s.
Proof. reflexivity. Qed.

Lemma activeLayerId_setCompletedCrop (v : option PixelCrop.t) (s : App) : activeLayerId (setCompletedCrop v s) = activeLayerId s.
Proof. reflexivity. Qed.

Lemma activeLayerId_revokeObjectURL (v : string) (s : App) : activeLayerId (revokeObjectURL v s) = activeLayerId s.
Proof. reflexivity. Qed.

Lemma activeLayerId_mintOne (s : App) : activeLayerId (mintOne s) = activeLayerId s.
Proof. reflexivity. Qed.

Lemma loadingMessage_setHistory (v : list AppState.t) (s : App) : loadingMessage (setHistory v s) = loadingMessage s.
Proof. reflexivity. Qed.

Lemma loadingMessage_setHistoryIndex (v : Z) (s : App) : loadingMessage (setHistoryIndex v s) = loadingMessage s.
Proof. reflexivity. Qed.

Lemma loadingMessage_setActiveLayerId (v : option string) (s : App) : loadingMessage (setActiveLayerId v s) = loadingMessage s.
Proof. reflexivity. Qed.

Lemma loadingMessage_setPrompt (v : string) (s : App) : loadingMessage (setPrompt v s) = loadingMessage s.
Proof. reflexivity. Qed.

Lemma loadingMessage_setLoadingMessage (v : option string) (s : App) : loadingMessage (setLoadingMessage v s) = v.
Proof. reflexivity. Qed.

Lemma loadingMessage_setError (v : option string) (s : App) : loadingMessage (setError v s) = loadingMessage s.
Proof. reflexivity. Qed.

Lemma loadingMessage_setActiveTab (v : Tab) (s : App) : loadingMessage (setActiveTab v s) = loadingMessage s.
Proof. reflexivity. Qed.

Lemma loadingMessage_setActiveTool (v : EditTool) (s : App) : loadingMessage (setActiveTool v s) = loadingMessage s.
Proof. reflexivity. Qed.

Lemma loadingMessage_setMaskImage (v : option string) (s : App) : loadingMessage (setMaskImage v s) = loadingMessage s.
Proof. reflexivity. Qed.

Lemma loadingMessage_setEditHotspot (v : option Hotspot.t) (s : App) : loadingMessage (setEditHotspot v s) = loadingMessage s.
Proof. reflexivity. Qed.

Lemma loadingMessage_setDisplayHotspot (v : option Hotspot.t) (s : App) : loadingMessage (setDisplayHotspot v s) = loadingMessage s.
Proof. reflexivity. Qed.

Lemma loadingMessage_setCrop (v : option PixelCrop.t) (s : App) : loadingMessage (setCrop v s) = loadingMessage s.
Proof. reflexivity. Qed.

Lemma loadingMessage_setCompletedCrop (v : option PixelCrop.t) (s : App) : loadingMessage (setCompletedCrop v s) = loadingMessage s.
Proof. reflexivity. Qed.

Lemma loadingMessage_revokeObjectURL (v : string) (s : App) : loadingMessage (revokeObjectURL v s) = loadingMessage s.
Proof. reflexivity. Qed.

Lemma loadingMessage_mintOne (s : App) : loadingMessage (mintOne s) = loadingMessage s.
Proof. reflexivity. Qed.

Lemma error_setHistory (v : list AppState.t) (s : App) : error (setHistory v s) = error s.
Proof. reflexivity. Qed.

Lemma error_setHistoryIndex (v : Z) (s : App) : error (setHistoryIndex v s) = error s.
Proof. reflexivity. Qed.

Lemma error_setActiveLayerId (v : option string) (s : App) : error (setActiveLayerId v s) = error s.
Proof. reflexivity. Qed.

Lemma error_setPrompt (v : string) (s : App) : error (setPrompt v s) = error s.
Proof. reflexivity. Qed.

Lemma error_setLoadingMessage (v : option string) (s : App) : error (setLoadingMessage v s) = error s.
Proof. reflexivity. Qed.

Lemma error_setError (v : option string) (s : App) : error (setError v s) = v.
Proof. reflexivity. Qed.

Lemma error_setActiveTab (v : Tab) (s : App) : error (setActiveTab v s) = error s.
Proof. reflexivity. Qed.

Lemma error_setActiveTool (v : EditTool) (s : App) : error (setActiveTool v s) = error s.
Proof. reflexivity. Qed.

Lemma error_setMaskImage (v : option string) (s : App) : error (setMaskImage v s) = error s.
Proof. reflexivity. Qed.

Lemma error_setEditHotspot (v : option Hotspot.t) (s : App) : error (setEditHotspot v s) = error s.
Proof. reflexivity. Qed.

Lemma error_setDisplayHotspot (v : option Hotspot.t) (s : App) : error (setDisplayHotspot v s) = error s.
Proof. reflexivity. Qed.

Lemma error_setCrop (v : option PixelCrop.t) (s : App) : error (setCrop v s) = error s.
Proof. reflexivity. Qed.

Lemma error_setCompletedCrop (v : option PixelCrop.t) (s : App) : error (setCompletedCrop v s) = error s.
Proof. reflexivity. Qed.

Lemma error_revokeObjectURL (v : string) (s : App) : error (revokeObjectURL v s) = error s.
Proof. reflexivity. Qed.

Lemma error_mintOne (s : App) : error (mintOne s) = error s.
Proof. reflexivity. Qed.

Lemma maskImage_setHistory (v : list AppState.t) (s : App) : maskImage (setHistory v s) = maskImage s.
Proof. reflexivity. Qed.

Lemma maskImage_setHistoryIndex (v : Z) (s : App) : maskImage (setHistoryIndex v s) = maskImage s.
Proof. reflexivity. Qed.

Lemma maskImage_setActiveLayerId (v : option string) (s : App) : maskImage (setActiveLayerId v s) = maskImage s.
Proof. reflexivity. Qed.

Lemma maskImage_setPrompt (v : string) (s : App) : maskImage (setPrompt v s) = maskImage s.
Proof. reflexivity. Qed.

Lemma maskImage_setLoadingMessage (v : option string) (s : App) : maskImage (setLoadingMessage v s) = maskImage s.
Proof. reflexivity. Qed.

Lemma maskImage_setError (v : option string) (s : App) : maskImage (setError v s) = maskImage s.
Proof. reflexivity. Qed.

Lemma maskImage_setActiveTab (v : Tab) (s : App) : maskImage (setActiveTab v s) = maskImage s.
Proof. reflexivity. Qed.

Lemma maskImage_setActiveTool (v : EditTool) (s : App) : maskImage (setActiveTool v s) = maskImage s.
Proof. reflexivity. Qed.

Lemma maskImage_setMaskImage (v : option string) (s : App) : maskImage (setMaskImage v s) = v.
Proof. reflexivity. Qed.

Lemma maskImage_setEditHotspot (v : option Hotspot.t) (s : App) : maskImage (setEditHotspot v s) = maskImage s.
Proof. reflexivity. Qed.

Lemma maskImage_setDisplayHotspot (v : option Hotspot.t) (s : App) : maskImage (setDisplayHotspot v s) = maskImage s.
Proof. reflexivity. Qed.

Lemma maskImage_setCrop (v : option PixelCrop.t) (s : App) : maskImage (setCrop v s) = maskImage s.
Proof. reflexivity. Qed.

Lemma maskImage_setCompletedCrop (v : option PixelCrop.t) (s : App) : maskImage (setCompletedCrop v s) = maskImage s.
Proof. reflexivity. Qed.

Lemma maskImage_revokeObjectURL (v : string) (s : App) : maskImage (revokeObjectURL v s) = maskImage s.
Proof. reflexivity. Qed.

Lemma maskImage_mintOne (s : App) : maskImage (mintOne s) = maskImage s.
Proof. reflexivity. Qed.

Lemma revoked_setHistory (v : list AppState.t) (s : App) : revoked (setHistory v s) = revoked s.
Proof. reflexivity. Qed.

Lemma revoked_setHistoryIndex (v : Z) (s : App) : revoked (setHistoryIndex v s) = revoked s.
Proof. reflexivity. Qed.

Lemma revoked_setActiveLayerId (v : option string) (s : App) : revoked (setActiveLayerId v s) = revoked s.
Proof. reflexivity. Qed.

Lemma revoked_setPrompt (v : string) (s : App) : revoked (setPrompt v s) = revoked s.
Proof. reflexivity. Qed.

Lemma revoked_setLoadingMessage (v : option string) (s : App) : revoked (setLoadingMessage v s) = revoked s.
Proof. reflexivity. Qed.

Lemma revoked_setError (v : option string) (s : App) : revoked (setError v s) = revoked s.
Proof. reflexivity. Qed.

Lemma revoked_setActiveTab (v : Tab) (s : App) : revoked (setActiveTab v s) = revoked s.
Proof. reflexivity. Qed.

Lemma revoked_setActiveTool (v : EditTool) (s : App) : revoked (setActiveTool v s) = revoked s.
Proof. reflexivity. Qed.

Lemma revoked_setMaskImage (v : option string) (s : App) : revoked (setMaskImage v s) = revoked s.
Proof. reflexivity. Qed.

Lemma revoked_setEditHotspot (v : option Hotspot.t) (s : App) : revoked (setEditHotspot v s) = revoked s.
Proof. reflexivity. Qed.

Lemma revoked_setDisplayHotspot (v : option Hotspot.t) (s : App) : revoked (setDisplayHotspot v s) = revoked s.
Proof. reflexivity. Qed.

Lemma revoked_setCrop (v : option PixelCrop.t) (s : App) : revoked (setCrop v s) = revoked s.
Proof. reflexivity. Qed.

Lemma revoked_setCompletedCrop (v : option PixelCrop.t) (s : App) : revoked (setCompletedCrop v s) = revoked s.
Proof. reflexivity. Qed.

Lemma revoked_revokeObjectURL (v : string) (s : App) : revoked (revokeObjectURL v s) = (revoked s ++ [v])%list.
Proof. reflexivity. Qed.

Lemma revoked_mintOne (s : App) : revoked (mintOne s) = revoked s.
Proof. reflexivity. Qed.

Lemma minted_setHistory (v : list AppState.t) (s : App) : minted (setHistory v s) = minted s.
Proof. reflexivity. Qed.

Lemma minted_setHistoryIndex (v : Z) (s : App) : minted (setHistoryIndex v s) = minted s.
Proof. reflexivity. Qed.

Lemma minted_setActiveLayerId (v : option string) (s : App) : minted (setActiveLayerId v s) = minted s.
Proof. reflexivity. Qed.

Lemma minted_setPrompt (v : string) (s : App) : minted (setPrompt v s) = minted s.
Proof. reflexivity. Qed.

Lemma minted_setLoadingMessage (v : option string) (s : App) : minted (setLoadingMessage v s) = minted s.
Proof. reflexivity. Qed.

Lemma minted_setError (v : option string) (s : App) : minted (setError v s) = minted s.
Proof. reflexivity. Qed.

Lemma minted_setActiveTab (v : Tab) (s : App) : minted (setActiveTab v s) = minted s.
Proof. reflexivity. Qed.

Lemma minted_setActiveTool (v : EditTool) (s : App) : minted (setActiveTool v s) = minted s.
Proof. reflexivity. Qed.

Lemma minted_setMaskImage (v : option string) (s : App) : minted (setMaskImage v s) = minted s.
Proof. reflexivity. Qed.

Lemma minted_setEditHotspot (v : option Hotspot.t) (s : App) : minted (setEditHotspot v s) = minted s.
Proof. reflexivity. Qed.

Lemma minted_setDisplayHotspot (v : option Hotspot.t) (s : App) : minted (setDisplayHotspot v s) = minted s.
Proof. reflexivity. Qed.

Lemma minted_setCrop (v : option PixelCrop.t) (s : App) : minted (setCrop v s) = minted s.
Proof. reflexivity. Qed.

Lemma minted_setCompletedCrop (v : option PixelCrop.t) (s : App) : minted (setCompletedCrop v s) = minted s.
Proof. reflexivity. Qed.

Lemma minted_revokeObjectURL (v : string) (s : App) : minted (revokeObjectURL v s) = minted s.
Proof. reflexivity. Qed.

Lemma minted_mintOne (s : App) : minted (mintOne s) = S (minted s).
Proof. reflexivity. Qed.

Create Rewrite HintDb fields.
#[local] Hint Rewrite history_setHistory history_setHistoryIndex history_setActiveLayerId history_setPrompt : fields.
#[local] Hint Rewrite history_setLoadingMessage history_setError history_setActiveTab history_setActiveTool : fields.
#[local] Hint Rewrite history_setMaskImage history_setEditHotspot history_setDisplayHotspot history_setCrop : fields.
#[local] Hint Rewrite history_setCompletedCrop history_revokeObjectURL history_mintOne historyIndex_setHistory : fields.
#[local] Hint Rewrite historyIndex_setHistoryIndex historyIndex_setActiveLayerId historyIndex_setPrompt historyIndex_setLoadingMessage : fields.
#[local] Hint Rewrite historyIndex_setError historyIndex_setActiveTab historyIndex_setActiveTool historyIndex_setMaskImage : fields.
#[local] Hint Rewrite historyIndex_setEditHotspot historyIndex_setDisplayHotspot historyIndex_setCrop historyIndex_setCompletedCrop : fields.
#[local] Hint Rewrite historyIndex_revokeObjectURL historyIndex_mintOne activeLayerId_setHistory activeLayerId_setHistoryIndex : fields.
#[local] Hint Rewrite activeLayerId_setActiveLayerId activeLayerId_setPrompt activeLayerId_setLoadingMessage activeLayerId_setError : fields.
#[local] Hint Rewrite activeLayerId_setActiveTab activeLayerId_setActiveTool activeLayerId_setMaskImage activeLayerId_setEditHotspot : fields.
#[local] Hint Rewrite activeLayerId_setDisplayHotspot activeLayerId_setCrop activeLayerId_setCompletedCrop activeLayerId_revokeObjectURL : fields.
#[local] Hint Rewrite activeLayerId_mintOne loadingMessage_setHistory loadingMessage_setHistoryIndex loadingMessage_setActiveLayerId : fields.
#[local] Hint Rewrite loadingMessage_setPrompt loadingMessage_setLoadingMessage loadingMessage_setError loadingMessage_setActiveTab : fields.
#[local] Hint Rewrite loadingMessage_setActiveTool loadingMessage_setMaskImage loadingMessage_setEditHotspot loadingMessage_setDisplayHotspot : fields.
#[local] Hint Rewrite loadingMessage_setCrop loadingMessage_setCompletedCrop loadingMessage_revokeObjectURL loadingMessage_mintOne : fields.
#[local] Hint Rewrite error_setHistory error_setHistoryIndex error_setActiveLayerId error_setPrompt : fields.
#[local] Hint Rewrite error_setLoadingMessage error_setError error_setActiveTab error_setActiveTool : fields.
#[local] Hint Rewrite error_setMaskImage error_setEditHotspot error_setDisplayHotspot error_setCrop : fields.
#[local] Hint Rewrite error_setCompletedCrop error_revokeObjectURL error_mintOne maskImage_setHistory : fields.
#[local] Hint Rewrite maskImage_setHistoryIndex maskImage_setActiveLayerId maskImage_setPrompt maskImage_setLoadingMessage : fields.
#[local] Hint Rewrite maskImage_setError maskImage_setActiveTab maskImage_setActiveTool maskImage_setMaskImage : fields.
#[local] Hint Rewrite maskImage_setEditHotspot maskImage_setDisplayHotspot maskImage_setCrop maskImage_setCompletedCrop : fields.
#[local] Hint Rewrite maskImage_revokeObjectURL maskImage_mintOne revoked_setHistory revoked_setHistoryIndex : fields.
#[local] Hint Rewrite revoked_setActiveLayerId revoked_setPrompt revoked_setLoadingMessage revoked_setError : fields.
#[local] Hint Rewrite revoked_setActiveTab revoked_setActiveTool revoked_setMaskImage revoked_setEditHotspot : fields.
#[local] Hint Rewrite revoked_setDisplayHotspot revoked_setCrop revoked_setCompletedCrop revoked_revokeObjectURL : fields.
#[local] Hint Rewrite revoked_mintOne minted_setHistory minted_setHistoryIndex minted_setActiveLayerId : fields.
#[local] Hint Rewrite minted_setPrompt minted_setLoadingMessage minted_setError minted_setActiveTab : fields.
#[local] Hint Rewrite minted_setActiveTool minted_setMaskImage minted_setEditHotspot minted_setDisplayHotspot : fields.
#[local] Hint Rewrite minted_setCrop minted_setCompletedCrop minted_revokeObjectURL minted_mintOne : fields.

Lemma currentState_through (t s : App) :
  history t = history s -> historyIndex t = historyIndex s ->
  forall cur, currentState s = Some cur -> currentState t = Some cur.
Proof. intros Hh Hi cur Hcur. now rewrite (currentState_ext t s Hh Hi). Qed.

(** ** Cropping *)

(** [revokeEach] touches the list of revoked URLs and nothing else. *)
Lemma revokeEach_eq (states : list AppState.t) (s : App) :
  revokeEach states s
  = mkApp (history s) (historyIndex s) (activeLayerId s) (prompt s) (loadingMessage s)
      (error s) (activeTab s) (activeTool s) (maskImage s) (editHotspot s)
      (displayHotspot s) (crop s) (completedCrop s)
      (revoked s ++ map AppState.imageUrl states) (minted s).
Proof.
  unfold revokeEach. revert s.
  induction states as [|st rest IH]; intros s.
  - destruct s. simpl. now rewrite app_nil_r.
  - simpl. rewrite IH. simpl. now rewrite <- app_assoc.
Qed.

Lemma addImageToHistory_frame (e : AppState.t) (s : App) :
  error (addImageToHistory e s) = error s
  /\ loadingMessage (addImageToHistory e s) = loadingMessage s
  /\ (forall u, In u (revoked s) -> In u (revoked (addImageToHistory e s))).
Proof.
  unfold addImageToHistory.
  destruct (historyIndex s <? historyLength s - 1).
  - rewrite revokeEach_eq. simpl. repeat split. intros u Hu. apply in_or_app. now left.
  - simpl. repeat split. tauto.
Qed.

(** A path on which the handler only used setters that leave the array
    alone contradicts the assumption that the array changed. *)
Ltac unchanged_leaf :=
  cbn [negb]; cbv iota;
  lazymatch goal with
  | |- history (fst (_, _)) <> _ -> _ =>
      let H := fresh in
      intros H; exfalso; apply H; cbn [fst]; autorewrite with fields; reflexivity
  end.

(** X7. A crop that changes the history has returned normally: the new
    current entry has no layers and carries the second object URL minted
    during the operation; the first one, made for the flattened image, has
    been revoked; the pointer moved one step and the busy message is cleared;
    the error banner is left as it was (the handler never clears it). *)
Theorem handleApplyCrop_pushes_flat_entry (w : World) (s : App) (cur : AppState.t)
  (Hcur : currentState s = Some cur)
  (Hchanged : history (fst (handleApplyCrop w s)) <> history s) :
  let s' := fst (handleApplyCrop w s) in
  snd (handleApplyCrop w s) = Returned
  /\ (exists file, currentState s' = Some (AppState.mk file (blobUrl w (S (minted s))) []))
  /\ historyIndex s' = historyIndex s + 1
  /\ minted s' = S (S (minted s))
  /\ In (blobUrl w (minted s)) (revoked s')
  /\ loadingMessage s' = None
  /\ error s' = error s.
Proof.
  intros s'. subst s'. revert Hchanged. unfold handleApplyCrop, createObjectURL.
  destruct (completedCrop s) as [c|];
    [|unchanged_leaf].
  destruct (imgRef w) as [img|]; [|unchanged_leaf].
  destruct (flattenImage w s) as [[flattenedFile|]|e|];
    try unchanged_leaf.
  rewrite minted_setLoadingMessage.
  destruct (loads w (blobUrl w (minted s)));
    [|unchanged_leaf].
  cbn [negb]. cbv iota.
  destruct (naturalSize w (blobUrl w (minted s))) as [nw nh].
  destruct (context2d w); [|unchanged_leaf].
  cbn [negb]. cbv iota. cbv zeta.
  match goal with
  | |- context [dataURLtoFile w ?u ?n] => destruct (dataURLtoFile w u n) as [err|newImageFile]
  end; [unchanged_leaf|].
  rewrite minted_revokeObjectURL, minted_mintOne, minted_setLoadingMessage.
  cbn [fst snd]. intros _.
  set (t := mintOne (revokeObjectURL (blobUrl w (minted s))
                       (mintOne (setLoadingMessage (Some "Applying crop...") s)))).
  set (newState := AppState.mk newImageFile (blobUrl w (S (minted s))) []).
  assert (Hcur' : currentState t = Some cur).
  { apply currentState_through with (s := s); [| |exact Hcur];
      subst t; now autorewrite with fields. }
  destruct (pushed_from_current newState cur t Hcur') as (Hnew & Hidx & _).
  destruct (addImageToHistory_frame newState t) as (Herr & _ & Hrev).
  assert (Hti : historyIndex t = historyIndex s) by (subst t; now autorewrite with fields).
  assert (Hte : error t = error s) by (subst t; now autorewrite with fields).
  assert (Htm : minted t = S (S (minted s))) by (subst t; now autorewrite with fields).
  assert (Htr : In (blobUrl w (minted s)) (revoked t)).
  { subst t. autorewrite with fields. apply in_or_app. right. now left. }
  split; [reflexivity|]. split; [|split; [|split; [|split; [|split]]]].
  - exists newImageFile.
    apply currentState_through with (s := addImageToHistory newState t);
      [apply history_setLoadingMessage | apply historyIndex_setLoadingMessage | exact Hnew].
  - rewrite historyIndex_setLoadingMessage, Hidx, Hti. reflexivity.
  - rewrite minted_setLoadingMessage, addImageToHistory_minted. exact Htm.
  - rewrite revoked_setLoadingMessage. apply Hrev. exact Htr.
  - apply loadingMessage_setLoadingMessage.
  - rewrite error_setLoadingMessage, Herr. exact Hte.
Qed.

Lemma handleApplyCrop_pushes_flat_entry_witness :
  snd (handleApplyCrop sampleWorld (handleUndo cropReady)) = Returned
  /\ historyIndex (fst (handleApplyCrop sampleWorld (handleUndo cropReady))) = 2
  /\ In "blob:0" (revoked (fst (handleApplyCrop sampleWorld (handleUndo cropReady)))).
Proof.
  assert (Hcur : currentState (handleUndo cropReady) = Some entry1) by reflexivity.
  assert (Hchanged : history (fst (handleApplyCrop sampleWorld (handleUndo cropReady)))
                     <> history (handleUndo cropReady))
    by (vm_compute; discriminate).
  destruct (handleApplyCrop_pushes_flat_entry sampleWorld (handleUndo cropReady)
              entry1 Hcur Hchanged) as (Hret & _ & Hidx & _ & Hrev & _).
  split; [exact Hret|]. split; [exact Hidx | exact Hrev].
Defined.

(** ** A push after undo can revoke an image that is still shown *)






(** ** Validation in [handleGenerate] *)


(** ** Data URLs *)

Lemma split_without_separator (sep : ascii) (s : string) :
  containsChar sep s = false -> JS.split sep s = [s].
Proof.
  induction s as [|c r IH]; simpl; [reflexivity|].
  intros H. apply orb_false_iff in H. destruct H as [Hc Hr].
  rewrite Hc, (IH Hr). reflexivity.
Qed.

Lemma split_with_separator (sep : ascii) (s : string) :
  containsChar sep s = true -> exists a b rest, JS.split sep s = a :: b :: rest.
Proof.
  induction s as [|c r IH]; simpl; [discriminate|].
  destruct (Ascii.eqb c sep) eqn:Hc.
  - intros _. destruct (JS.split sep r) as [|b rest] eqn:Hs.
    + destruct r; simpl in Hs; [discriminate|].
      destruct (Ascii.eqb a sep); [discriminate|].
      destruct (JS.split sep r); discriminate.
    + now exists "", b, rest.
  - simpl. intros Hr. destruct (IH Hr) as (a & b & rest & ->).
    now exists (String c a), b, rest.
Qed.



(** X10. [dataURLtoFile] throws "Invalid data URL" exactly on the strings
    without a comma; every other failure carries another message. *)
Theorem dataURLtoFile_invalid_iff_no_comma (w : World) (dataurl filename : string) :
  dataURLtoFile w dataurl filename = inl (JsError "Invalid data URL")
  <-> containsChar "," dataurl = false.
Proof.
  unfold dataURLtoFile. split.
  - destruct (containsChar "," dataurl) eqn:Hc; [|reflexivity].
    destruct (split_with_separator _ _ Hc) as (a & b & rest & ->).
    destruct (JS.matchMime a) as [mime|]; [|discriminate].
    destruct (JS.truthy mime); [|discriminate].
    destruct (atob w b); discriminate.
  - intros Hc. now rewrite (split_without_separator _ _ Hc).
Qed.






(** ** The answer of the model *)

(** X12. [handleApiResponse] returns a value exactly when the prompt was not
    blocked and the parts of the first candidate hold inline data; the value
    is then the data URL made of the MIME type and the data of the first
    such part.  Images in later candidates are never looked at, and a
    blocked prompt throws even when an image came with it. *)
Theorem handleApiResponse_returns_first_image (response : Gemini.Response)
  (context url : string) :
  Gemini.handleApiResponse response context = inr url
  <-> (forall feedback, Gemini.promptFeedback response = Some feedback ->
         Gemini.truthyOpt (Gemini.blockReason feedback) = false)
      /\ exists part image,
           Gemini.imagePartFromResponse response = Some part
           /\ Gemini.inlineData part = Some image
           /\ url = ("data:" ++ Gemini.shown (Gemini.mimeType image) ++ ";base64,"
                     ++ Gemini.shown (Gemini.data image))%string.
Proof.
  unfold Gemini.handleApiResponse. split.
  - destruct (Gemini.promptFeedback response) as [feedback|].
    + destruct (Gemini.truthyOpt (Gemini.blockReason feedback)) eqn:Hb; [discriminate|].
      destruct (Gemini.imagePartFromResponse response) as [part|]; simpl.
      * destruct (Gemini.inlineData part) as [image|] eqn:Hi.
        -- intros [= <-]. split; [intros f [= <-]; exact Hb|]. now exists part, image.
        -- destruct (_ && _)%bool; discriminate.
      * destruct (_ && _)%bool; discriminate.
    + destruct (Gemini.imagePartFromResponse response) as [part|]; simpl.
      * destruct (Gemini.inlineData part) as [image|] eqn:Hi.
        -- intros [= <-]. split; [discriminate|]. now exists part, image.
        -- destruct (_ && _)%bool; discriminate.
      * destruct (_ && _)%bool; discriminate.
  - intros [Hfree (part & image & Hpart & Himage & ->)].
    destruct (Gemini.promptFeedback response) as [feedback|].
    + rewrite (Hfree feedback eq_refl), Hpart. simpl. now rewrite Himage.
    + rewrite Hpart. simpl. now rewrite Himage.
Qed.




(** ** The component wired to the service *)

(** X15. [handleGenerate] never hands the service a hotspot together with a
    mask, nor an empty mask: two services that agree on all other calls
    give the same outcome. *)
Theorem handleGenerate_selection_is_exclusive (w : World)
  (gen gen' : File -> string -> option Hotspot.t -> option string -> Promise string)
  (s : App)
  (Hagree : forall file p hotspot mask,
      (hotspot = None \/ mask = None) -> mask <> Some "" ->
      gen file p hotspot mask = gen' file p hotspot mask) :
  handleGenerate w gen s = handleGenerate w gen' s.
Proof.
  unfold handleGenerate.
  destruct (currentImageFile s) as [file|]; [|reflexivity].
  destruct (currentState s) as [cur|]; [|reflexivity].
  destruct (negb (JS.truthy (JS.trim (prompt s)))); [reflexivity|].
  assert (Hcall : forall hp hb,
             hp = (match activeTool s, editHotspot s with
                   | Point, Some _ => true
                   | _, _ => false
                   end) ->
             hb = (match activeTool s, maskImage s with
                   | Point, _ => false
                   | _, Some m => JS.truthy m
                   | _, None => false
                   end) ->
             gen file (prompt s) (if hp then editHotspot s else None)
               (if hb then maskImage s else None)
             = gen' file (prompt s) (if hp then editHotspot s else None)
                 (if hb then maskImage s else None)).
  { intros hp hb -> ->. apply Hagree.
    - destruct (activeTool s); [right| |]; try reflexivity;
        destruct (maskImage s) as [m|]; try (now left);
        destruct (JS.truthy m); now left.
    - destruct (activeTool s); try discriminate;
        destruct (maskImage s) as [m|]; try discriminate;
        destruct m; simpl; discriminate. }
  cbv zeta. rewrite (Hcall _ _ eq_refl eq_refl). reflexivity.
Qed.

Lemma handleGenerate_selection_is_exclusive_witness :
  handleGenerate sampleWorld hatService prompted
  = handleGenerate sampleWorld
      (fun file p hotspot mask =>
         match hotspot, mask with
         | Some _, Some _ => Rejected (JsError "both")
         | _, _ => hatService file p hotspot mask
         end) prompted.
Proof.
  apply (handleGenerate_selection_is_exclusive sampleWorld).
  intros file p hotspot mask [-> | ->] _; [reflexivity|].
  destruct hotspot; reflexivity.
Defined.







(** ** Prompt enhancement and suggestions *)












(** X20. Once the key is there and the image has been read,
    [getAiSuggestions] has three outcomes only: it waits for the model, it
    resolves with a list that is not empty, or it rejects with the one fixed
    message, whatever went wrong with the model, its text or the JSON. *)
Theorem getAiSuggestions_never_empty (c : Gemini.Cloud) (image : option File)
  (imagePart : Gemini.RequestPart)
  (Hkey : Gemini.truthyOpt (Gemini.apiKey c) = true)
  (Hread : Gemini.fileToPart c image = Resolved imagePart) :
  match Gemini.getAiSuggestions c image with
  | Resolved suggestions => suggestions <> []
  | Rejected e =>
      e = JsError "The AI was unable to provide suggestions for this image."
  | Pending =>
      Gemini.generateContent c
        (Gemini.mkRequest Gemini.textModel
           (Gemini.PartsOf [imagePart; Gemini.TextPart Gemini.suggestionsPrompt]) true)
      = Pending
  end.
Proof.
  unfold Gemini.getAiSuggestions, Gemini.getAiClient. rewrite Hkey, Hread.
  destruct (Gemini.generateContent c _) as [response|e|]; try reflexivity.
  destruct (Gemini.text response) as [t|]; [|reflexivity].
  destruct (Gemini.jsonParse c (JS.trim t)) as [e|[[|first rest]|]];
    try reflexivity. discriminate.
Qed.

Lemma getAiSuggestions_never_empty_witness :
  Gemini.getAiSuggestions sampleCloud (Some photo)
  = Rejected (JsError "The AI was unable to provide suggestions for this image.").
Proof.
  pose proof (getAiSuggestions_never_empty sampleCloud (Some photo)
                (Gemini.InlinePart "image/png" "PHOTO") eq_refl eq_refl) as Hrun.
  destruct (Gemini.getAiSuggestions sampleCloud (Some photo)) as [l|e|] eqn:Hs.
  - vm_compute in Hs. discriminate.
  - now rewrite Hrun.
  - vm_compute in Hs. discriminate.
Defined.

(** ** The download *)

Ltac download_leaf Hidle :=
  cbn [fst snd]; autorewrite with fields;
  repeat split; intros; try discriminate; try reflexivity; try exact Hidle.

Lemma exportFile_keeps_history (w : World) (x : Exporter) (options : DownloadOptions)
  (fileToProcess : option File) (s s1 : App) (p1 : Page.t) :
  history s1 = history s -> historyIndex s1 = historyIndex s ->
  let r := exportFile w x options fileToProcess s1 p1 in
  history (fst (fst r)) = history s
  /\ historyIndex (fst (fst r)) = historyIndex s
  /\ (forall e, snd r <> Uncaught e)
  /\ (snd r = Returned -> loadingMessage (fst (fst r)) = None)
  /\ Page.isDownloadModalOpen (snd (fst r)) = Page.isDownloadModalOpen p1.
Proof.
  intros Hh Hi r. subst r. unfold exportFile, createObjectURL.
  destruct fileToProcess as [file|]; [|download_leaf Hh; assumption].
  destruct (loads w (blobUrl w (minted s1)));
    cbn [negb]; cbv iota; [|download_leaf Hh; assumption].
  destruct (naturalSize w (blobUrl w (minted s1))) as [nw nh].
  destruct (context2d w); cbn [negb]; cbv iota; download_leaf Hh; assumption.
Qed.

(** X21. A download never changes the history or the pointer and closes
    the dialog; no exception escapes it, and when it returns (having been
    started while nothing was running) the busy message is cleared. *)
Theorem handleConfirmDownload_keeps_history (w : World) (x : Exporter)
  (upscaleImage : option File -> Promise string) (options : DownloadOptions)
  (s : App) (p : Page.t) (Hidle : loadingMessage s = None) :
  let r := handleConfirmDownload w x upscaleImage options s p in
  history (fst (fst r)) = history s
  /\ historyIndex (fst (fst r)) = historyIndex s
  /\ (forall e, snd r <> Uncaught e)
  /\ (snd r = Returned -> loadingMessage (fst (fst r)) = None)
  /\ Page.isDownloadModalOpen (snd (fst r)) = false.
Proof.
  intros r. subst r. unfold handleConfirmDownload.
  destruct (currentImageFile s) as [file|]; [|download_leaf Hidle].
  destruct (flattenImage w s) as [flattened|err|]; try solve [download_leaf Hidle].
  destruct (upscale options).
  - destruct (upscaleImage flattened) as [url|err|]; try solve [download_leaf Hidle].
    destruct (dataURLtoFile w url "upscaled.png") as [err|file'];
      [download_leaf Hidle|].
    apply (exportFile_keeps_history w x options (Some file') s); reflexivity.
  - apply (exportFile_keeps_history w x options flattened s); reflexivity.
Qed.

Lemma handleConfirmDownload_keeps_history_witness :
  history (fst (fst (handleConfirmDownload sampleWorld
                       (mkExporter (fun _ _ _ => "data:image/jpeg;base64,JPEG")
                                   (fun _ => "16"))
                       (fun _ => Pending)
                       (mkDownloadOptions "jpeg" 90 true false) generated Page.initial)))
  = history generated.
Proof.
  destruct (handleConfirmDownload_keeps_history sampleWorld
              (mkExporter (fun _ _ _ => "data:image/jpeg;base64,JPEG") (fun _ => "16"))
              (fun _ => Pending) (mkDownloadOptions "jpeg" 90 true false)
              generated Page.initial ltac:(vm_compute; reflexivity)) as (Hh & _).
  exact Hh.
Defined.

Lemma exportFile_downloads (w : World) (x : Exporter) (options : DownloadOptions)
  (fileToProcess : option File) (s1 : App) (p1 : Page.t) :
  let r := exportFile w x options fileToProcess s1 p1 in
  (snd r = Returned /\ error (fst (fst r)) = error s1 /\
   exists address,
     Page.downloads (snd (fst r))
     = (Page.downloads p1
        ++ [Page.mkDownload address ("w3j-studio-edit." ++ format options)])%list
     /\ revoked (fst (fst r)) = (revoked s1 ++ [blobUrl w (minted s1)])%list)
  \/ (Page.downloads (snd (fst r)) = Page.downloads p1
      /\ (snd r = Returned -> exists message, error (fst (fst r)) = Some message)).
Proof.
  intros r. subst r. unfold exportFile, createObjectURL.
  destruct fileToProcess as [file|].
  2:{ right. cbn [fst snd]. autorewrite with fields. split; [reflexivity|]. eauto. }
  destruct (loads w (blobUrl w (minted s1))); cbn [negb]; cbv iota.
  2:{ right. cbn [fst snd]. split; [reflexivity|]. discriminate. }
  destruct (naturalSize w (blobUrl w (minted s1))) as [nw nh].
  destruct (context2d w); cbn [negb]; cbv iota.
  2:{ right. cbn [fst snd]. autorewrite with fields. split; [reflexivity|]. eauto. }
  left. cbn [fst snd]. autorewrite with fields.
  split; [reflexivity|]. split; [reflexivity|]. eexists. split; reflexivity.
Qed.

(** X22. A download hands the user at most one file.  Either the handler
    returned, one link was clicked, for a file named [w3j-studio-edit.]
    followed by the chosen format, the error banner was cleared and the
    object URL minted for the image is revoked again; or no file is handed
    over and, if the handler returned with an image loaded, an error is
    reported. *)
Theorem handleConfirmDownload_hands_over_one_file (w : World) (x : Exporter)
  (upscaleImage : option File -> Promise string) (options : DownloadOptions)
  (s : App) (p : Page.t) (cur : AppState.t) (Hcur : currentState s = Some cur) :
  let r := handleConfirmDownload w x upscaleImage options s p in
  (snd r = Returned /\ error (fst (fst r)) = None /\
   exists address,
     Page.downloads (snd (fst r))
     = (Page.downloads p
        ++ [Page.mkDownload address ("w3j-studio-edit." ++ format options)])%list
     /\ revoked (fst (fst r)) = (revoked s ++ [blobUrl w (minted s)])%list)
  \/ (Page.downloads (snd (fst r)) = Page.downloads p
      /\ (snd r = Returned -> exists message, error (fst (fst r)) = Some message)).
Proof.
  intros r. subst r. unfold handleConfirmDownload, currentImageFile. rewrite Hcur.
  simpl option_map. cbv iota.
  destruct (flattenImage w s) as [flattened|err|].
  - destruct (upscale options).
    + destruct (upscaleImage flattened) as [url|err|].
      * destruct (dataURLtoFile w url "upscaled.png") as [err|file'].
        -- right. cbn [fst snd]. autorewrite with fields. split; [reflexivity|]. eauto.
        -- exact (exportFile_downloads w x options (Some file')
                    (s |> setLoadingMessage (Some "Preparing download...")
                       |> setError None
                       |> setLoadingMessage (Some "Upscaling image..."))
                    (Page.setIsDownloadModalOpen false p)).
      * right. cbn [fst snd]. autorewrite with fields. split; [reflexivity|]. eauto.
      * right. cbn [fst snd]. split; [reflexivity|]. discriminate.
    + exact (exportFile_downloads w x options flattened
               (s |> setLoadingMessage (Some "Preparing download...") |> setError None)
               (Page.setIsDownloadModalOpen false p)).
  - right. cbn [fst snd]. autorewrite with fields. split; [reflexivity|]. eauto.
  - right. cbn [fst snd]. split; [reflexivity|]. discriminate.
Qed.

Lemma handleConfirmDownload_hands_over_one_file_witness :
  Page.downloads (snd (fst (handleConfirmDownload sampleWorld jpegExporter
                              (fun _ => Pending) jpegOptions uploaded Page.initial)))
  = [Page.mkDownload "data:image/jpeg;base64,JPEG" "w3j-studio-edit.jpeg"].
Proof.
  assert (Hcur : currentState uploaded = Some (AppState.mk photo "blob:0" []))
    by (vm_compute; reflexivity).
  destruct (handleConfirmDownload_hands_over_one_file sampleWorld jpegExporter
              (fun _ => Pending) jpegOptions uploaded Page.initial _ Hcur)
    as [(_ & _ & address & Hd & _)|[Hd _]].
  - vm_compute. reflexivity.
  - vm_compute in Hd. discriminate.
Defined.

(** ** The prompt helper and the suggestions *)




(** X25. The suggestions dialog never shows an empty list: after
    [handleGetSuggestions] with the service, the suggestions are absent or
    a list with at least one entry (provided they were so before); the
    history and the pointer are untouched, and when the handler returns
    without suggestions for a loaded image an error message starting with
    "Failed to get suggestions. " is set. *)
Theorem handleGetSuggestions_never_shows_empty_list (c : Gemini.Cloud) (s : App)
  (p : Page.t) (Hbefore : Page.aiSuggestions p <> Some []) :
  let r := handleGetSuggestions (Gemini.getAiSuggestions c) s p in
  Page.aiSuggestions (snd (fst r)) <> Some []
  /\ history (fst (fst r)) = history s
  /\ historyIndex (fst (fst r)) = historyIndex s
  /\ (currentState s <> None -> snd r = Returned ->
      Page.aiSuggestions (snd (fst r)) = None ->
      exists reason,
        error (fst (fst r)) = Some ("Failed to get suggestions. " ++ reason)%string).
Proof.
  intros r. subst r. unfold handleGetSuggestions, currentImageFile.
  destruct (currentState s) as [cur|]; simpl option_map; cbv iota.
  2:{ cbn [fst snd]. repeat split; try assumption. congruence. }
  destruct (Gemini.getAiSuggestions c (Some (AppState.imageFile cur)))
    as [suggestions|err|] eqn:Hrun; cbn [fst snd].
  - assert (Hne : suggestions <> []).
    { revert Hrun. unfold Gemini.getAiSuggestions.
      destruct (Gemini.getAiClient c); [discriminate|].
      destruct (Gemini.fileToPart c _); try discriminate.
      destruct (Gemini.generateContent c _) as [response| |]; try discriminate.
      destruct (Gemini.text response); [|discriminate].
      destruct (Gemini.jsonParse c _) as [|[[|first rest]|]]; try discriminate.
      intros [= <-]. discriminate. }
    repeat split; try discriminate; try congruence.
    simpl. congruence.
  - repeat split; try discriminate.
    intros _ _ _. exists (errorMessage err). reflexivity.
  - repeat split; try discriminate.
Qed.

Lemma handleGetSuggestions_never_shows_empty_list_witness :
  Page.aiSuggestions
    (snd (fst (handleGetSuggestions (Gemini.getAiSuggestions sampleCloud) uploaded
                 Page.initial))) <> Some [].
Proof.
  exact (proj1 (handleGetSuggestions_never_shows_empty_list sampleCloud uploaded
                  Page.initial ltac:(discriminate))).
Defined.

(** ** The session *)

Lemma mount_agrees (storage : string -> option string) :
  Auth.localStorage (Auth.mount storage) = storage
  /\ (Auth.isSignedIn (Auth.mount storage) = true
      <-> storage Auth.sessionKey = Some "true").
Proof.
  unfold Auth.mount. destruct (storage Auth.sessionKey) as [v|].
  - destruct (String.eqb v "true") eqn:He; simpl.
    + apply String.eqb_eq in He. subst v. split; [reflexivity|]. tauto.
    + apply String.eqb_neq in He. split; [reflexivity|]. split; [discriminate|].
      intros [= H]. congruence.
  - simpl. split; [reflexivity|]. split; discriminate.
Qed.

Lemma act_agrees (storage : string -> option string) (action : Auth.Action) (a : Auth.t)
  (Hsigned : Auth.isSignedIn a = true
             <-> Auth.localStorage a Auth.sessionKey = Some "true")
  (Hkeys : forall key, key <> Auth.sessionKey -> Auth.localStorage a key = storage key) :
  (Auth.isSignedIn (Auth.act action a) = true
   <-> Auth.localStorage (Auth.act action a) Auth.sessionKey = Some "true")
  /\ (forall key, key <> Auth.sessionKey ->
        Auth.localStorage (Auth.act action a) key = storage key).
Proof.
  destruct action; unfold Auth.act, Auth.signIn, Auth.signOut, Auth.reload.
  - cbn [Auth.localStorage Auth.isSignedIn]. unfold Auth.setItem.
    rewrite String.eqb_refl. split; [tauto|].
    intros key Hkey. apply String.eqb_neq in Hkey. rewrite Hkey.
    apply Hkeys. now apply String.eqb_neq.
  - destruct (mount_agrees (Auth.removeItem Auth.sessionKey (Auth.localStorage a)))
      as [Hl Hm].
    rewrite Hl. split; [exact Hm|].
    intros key Hkey. unfold Auth.removeItem.
    pose proof Hkey as Hkey'. apply String.eqb_neq in Hkey'. rewrite Hkey'.
    now apply Hkeys.
  - destruct (mount_agrees (Auth.localStorage a)) as [Hl Hm].
    rewrite Hl. split; [exact Hm|]. exact Hkeys.
Qed.

(** X26. From the moment the provider is mounted, and through any sequence
    of sign-in, sign-out and page reload, the user is signed in exactly when
    the stored session is "true"; in particular a reload keeps a signed-in
    user signed in and a signed-out user signed out.  No other key of the
    storage is ever changed. *)
Theorem session_matches_storage (storage : string -> option string)
  (actions : list Auth.Action) :
  let a := Auth.play actions (Auth.mount storage) in
  (Auth.isSignedIn a = true <-> Auth.localStorage a Auth.sessionKey = Some "true")
  /\ Auth.isSignedIn (Auth.reload a) = Auth.isSignedIn a
  /\ (forall key, key <> Auth.sessionKey -> Auth.localStorage a key = storage key).
Proof.
  intros a. subst a.
  assert (Hinv : forall acts a0,
             (Auth.isSignedIn a0 = true
              <-> Auth.localStorage a0 Auth.sessionKey = Some "true") ->
             (forall key, key <> Auth.sessionKey ->
                Auth.localStorage a0 key = storage key) ->
             (Auth.isSignedIn (Auth.play acts a0) = true
              <-> Auth.localStorage (Auth.play acts a0) Auth.sessionKey = Some "true")
             /\ (forall key, key <> Auth.sessionKey ->
                   Auth.localStorage (Auth.play acts a0) key = storage key)).
  { unfold Auth.play. induction acts as [|action rest IH]; intros a0 Hs Hk; simpl.
    - split; assumption.
    - destruct (act_agrees storage action a0 Hs Hk) as [Hs' Hk'].
      exact (IH _ Hs' Hk'). }
  destruct (mount_agrees storage) as [Hs Hm].
  destruct (Hinv actions (Auth.mount storage)) as [Hsigned Hkeys].
  - now rewrite Hs.
  - intros key _. now rewrite Hs.
  - split; [exact Hsigned|]. split; [|exact Hkeys].
    unfold Auth.reload.
    destruct (mount_agrees (Auth.localStorage (Auth.play actions (Auth.mount storage))))
      as [_ Hr].
    destruct (Auth.isSignedIn (Auth.play actions (Auth.mount storage))).
    + apply Hr. now apply Hsigned.
    + destruct (Auth.isSignedIn
                  (Auth.mount (Auth.localStorage (Auth.play actions (Auth.mount storage)))));
        [|reflexivity].
      symmetry. apply Hsigned. now apply Hr.
Qed.

(** ** The pointer invariant across the handlers *)

Lemma threeEntries_pointerInRange : pointerInRange threeEntries.
Proof. unfold pointerInRange. split; [vm_compute; split; discriminate | discriminate]. Qed.

Ltac split_page_handler :=
  repeat match goal with
    | |- pointerInRange (fst (fst (match ?x with _ => _ end))) => destruct x eqn:?
    end.

Lemma page_handlers_pointerInRange (w : World) (x : Exporter) (s : App) (p : Page.t) :
  pointerInRange s ->
  (forall enhance, pointerInRange (fst (fst (handleEnhancePrompt enhance s p))))
  /\ (forall suggest, pointerInRange (fst (fst (handleGetSuggestions suggest s p))))
  /\ (forall adjust suggestionPrompt title,
        pointerInRange (fst (fst (handleApplySuggestion w adjust suggestionPrompt title s p))))
  /\ (forall upscaleImage options,
        pointerInRange (fst (fst (handleConfirmDownload w x upscaleImage options s p)))).
Proof.
  intros H. split; [|split; [|split]].
  - intros enhance. unfold handleEnhancePrompt. split_page_handler; keep_range.
  - intros suggest. unfold handleGetSuggestions. split_page_handler; keep_range.
  - intros adjust suggestionPrompt title. unfold handleApplySuggestion.
    destruct (async_handlers_pointerInRange w s H) as (_ & _ & Hedit & _).
    specialize (Hedit adjust suggestionPrompt ("Applying " ++ title ++ "...")%string).
    destruct (handleApplyGlobalEdit w adjust suggestionPrompt _ s) as [s1 done].
    exact Hedit.
  - intros upscaleImage options. unfold handleConfirmDownload, exportFile, createObjectURL.
    split_page_handler; keep_range.
Qed.

(** X27. The pointer invariant of the history (in range, and -1 only on
    the empty store) is kept by every handler of the component, not only by
    push, undo and redo: upload, reset, new upload, layer selection and
    deletion, a click on the image, generate, remove, global edit, crop,
    prompt enhancement, suggestions and download, on every path through
    them, whatever the browser and the service answer. *)
Theorem every_handler_keeps_pointer_in_range (w : World) (x : Exporter) (s : App)
  (p : Page.t) (Hrange : pointerInRange s) :
  (forall file, pointerInRange (handleImageUpload w file s))
  /\ pointerInRange (handleUndo s)
  /\ pointerInRange (handleRedo s)
  /\ pointerInRange (handleReset s)
  /\ pointerInRange (handleUploadNew s)
  /\ (forall layerId, pointerInRange (handleSelectLayer layerId s))
  /\ (forall layerId, pointerInRange (handleDeleteLayer layerId s))
  /\ (forall e, pointerInRange (handleBaseImageClick e s))
  /\ (forall gen, pointerInRange (fst (handleGenerate w gen s)))
  /\ (forall rm, pointerInRange (fst (handleRemove w rm s)))
  /\ (forall ef prompt message,
        pointerInRange (fst (handleApplyGlobalEdit w ef prompt message s)))
  /\ pointerInRange (fst (handleApplyCrop w s))
  /\ (forall enhance, pointerInRange (fst (fst (handleEnhancePrompt enhance s p))))
  /\ (forall suggest, pointerInRange (fst (fst (handleGetSuggestions suggest s p))))
  /\ (forall adjust suggestionPrompt title,
        pointerInRange (fst (fst (handleApplySuggestion w adjust suggestionPrompt title s p))))
  /\ (forall upscaleImage options,
        pointerInRange (fst (fst (handleConfirmDownload w x upscaleImage options s p)))).
Proof.
  destruct (sync_handlers_pointerInRange w s Hrange)
    as (Hupload & Hreset & Hnew & Hselect & Hdelete & Hclick).
  destruct (async_handlers_pointerInRange w s Hrange)
    as (Hgenerate & Hremove & Hedit & Hcrop).
  destruct (page_handlers_pointerInRange w x s p Hrange)
    as (Henhance & Hsuggest & Happly & Hdownload).
  pose proof (handleUndo_pointerInRange s Hrange) as Hundo.
  pose proof (handleRedo_pointerInRange s Hrange) as Hredo.
  repeat (split; [assumption|]). assumption.
Qed.

Lemma every_handler_keeps_pointer_in_range_witness :
  pointerInRange (handleReset threeEntries)
  /\ pointerInRange (handleDeleteLayer "1700000000001" threeEntries)
  /\ pointerInRange (fst (handleApplyCrop sampleWorld threeEntries))
  /\ pointerInRange
       (fst (fst (handleConfirmDownload sampleWorld jpegExporter (fun _ => Pending)
                    jpegOptions threeEntries Page.initial))).
Proof.
  destruct (every_handler_keeps_pointer_in_range sampleWorld jpegExporter threeEntries
              Page.initial threeEntries_pointerInRange)
    as (_ & _ & _ & Hreset & _ & _ & Hdelete & _ & _ & _ & _ & Hcrop & _ & _ & _ & Hdownload).
  split; [exact Hreset|]. split; [apply Hdelete|]. split; [exact Hcrop|]. apply Hdownload.
Defined.
